(** * keep-ups: the sensor-to-physics coordination core of [game.js]

    A shallow embedding of the game loop of [src/game.js]: the landmark
    mapper [mapLandmarkToWorld], the T-pose detector [checkTPose], the
    frame callback [animate] with its gesture hold tracking, limb update,
    collision handling and post-physics adjustments, and the helpers
    [updateKinematicCollider], [updateMarkerMesh], [updateLegLine],
    [resetBall], [updateScore] and [flashBallColor]; and, beside the game
    loop, the two landmark arrays that [onPoseResults] builds for the
    overlay and the instructions overlay with its timer.

    Modelling choices.
    - In the game loop a JavaScript number is an exact rational ([Q]);
      decimal literals of the source are the same decimal fractions here,
      and no operation rounds.  Where rounding decides the answer the code
      is modelled a second time with the numbers of the script, IEEE 754
      doubles: the module [Double] holds the T-pose detector and the spawn
      coordinates of [resetBall] over [spec_float], every operation rounded
      to nearest-even, and [Math_fround], the rounding to single precision
      that the engine applies to the coordinates it stores.
    - The globals of the script are the fields of the record [Game]; every
      function of the script that mutates them is a function [Game -> Game].
    - The rigid-body engine is external.  Bodies are records holding what
      the script reads and writes (translation, velocities, next kinematic
      target); what [physicsWorld.step] does to them, and the events the
      queue then drains, is a parameter [world_step] of each frame.
    - [Math.random] is a parameter [random], a stream indexed by the number
      of calls made so far.
    - Time is the game clock in milliseconds ([elapsedTimeMs]).  A
      [setTimeout] callback is a pending entry holding the earliest time at
      which the browser may run it (the time of the call plus the delay);
      the browser events (pose results, animation frames, timer callbacks)
      are the constructors of [Callback].
    - The console is part of the state: the lines logged so far.
    - Objects created by the init functions exist by the time [animate]
      first runs, so the null tests on them always succeed. *)

From Stdlib Require Import QArith Qminmax Qabs Qround Lqa ZArith Lia.
From Stdlib Require Import List Bool String SpecFloat.
Import ListNotations.

Local Open Scope Q_scope.

(** ** Numbers *)

(** The strict comparison [a < b] of two numbers, as a boolean. *)
Definition Qltb (a b : Q) : bool := negb (Qle_bool b a).

(** [{x, y, z}] objects: world points, velocities, impulses. *)
Record Vec3 : Type := mkVec3 { v_x : Q; v_y : Q; v_z : Q }.

(** ** Pose landmarks *)

Record Landmark : Type := mkLandmark {
  lm_x : Q;
  lm_y : Q;
  lm_z : Q;
  lm_visibility : Q
}.

(** A landmark array; [None] is an [undefined] entry. *)
Definition Landmarks : Type := list (option Landmark).

(** [landmarks[i]]: reading past the end of an array gives [undefined]. *)
Definition lookup (landmarks : Landmarks) (i : nat) : option Landmark :=
  match nth_error landmarks i with
  | Some entry => entry
  | None => None
  end.

(** The [results] object handed to [onPoseResults]; [poseLandmarks] may be
    missing. *)
Record PoseResults : Type := mkPoseResults {
  poseLandmarks : option Landmarks
}.

Definition LANDMARK_VISIBILITY_THRESHOLD : Q := 0.4.
Definition L_SHOULDER : nat := 11.
Definition R_SHOULDER : nat := 12.
Definition L_ELBOW : nat := 13.
Definition R_ELBOW : nat := 14.
Definition L_WRIST : nat := 15.
Definition R_WRIST : nat := 16.
Definition L_KNEE : nat := 25.
Definition R_KNEE : nat := 26.
Definition L_ANKLE : nat := 27.
Definition R_ANKLE : nat := 28.

(** ** mapLandmarkToWorld *)

Definition worldWidth : Q := 3.5.
Definition worldHeight : Q := 3.5.
Definition yOffset : Q := 0.1.
Definition xOffset : Q := 0.

Definition mapLandmarkToWorld (landmark : option Landmark) : option Vec3 :=
  match landmark with
  | None => None
  | Some lm =>
      if Qltb (lm_visibility lm) 0.3 then None
      else
        let gameX := (1.0 - lm_x lm - 0.5) * worldWidth + xOffset in
        let gameY := (1.0 - lm_y lm) * worldHeight + yOffset in
        let gameZ := 0.0 in
        Some {| v_x := gameX; v_y := Qmax 0 gameY; v_z := gameZ |}
  end.

(** ** checkTPose *)

Definition yTolerance : Q := 0.3.
Definition xToleranceShoulder : Q := 0.1.
Definition xToleranceElbow : Q := 0.1.

(** The callback of [every]: [lm && lm.visibility > THRESHOLD]. *)
Definition visibleEnough (lm : option Landmark) : bool :=
  match lm with
  | Some l => Qltb LANDMARK_VISIBILITY_THRESHOLD (lm_visibility l)
  | None => false
  end.

Definition leftArmHorizontal (lShoulder lElbow lWrist : Landmark) : bool :=
  Qltb (lm_y lElbow) (lm_y lShoulder + yTolerance)
  && Qltb (lm_y lWrist) (lm_y lElbow + yTolerance).

(** The two differences are exact here; the script rounds each of them to
    a double before taking [Math.abs] ([Double.leftArmExtended]). *)
Definition leftArmExtended (lShoulder lElbow lWrist : Landmark) : bool :=
  Qltb xToleranceShoulder (Qabs (lm_x lElbow - lm_x lShoulder))
  && Qltb xToleranceElbow (Qabs (lm_x lWrist - lm_x lElbow)).

Definition leftArmOutward (lShoulder lElbow lWrist : Landmark) : bool :=
  Qltb (lm_x lShoulder) (lm_x lElbow) && Qltb (lm_x lElbow) (lm_x lWrist).

Definition rightArmHorizontal (rShoulder rElbow rWrist : Landmark) : bool :=
  Qltb (lm_y rElbow) (lm_y rShoulder + yTolerance)
  && Qltb (lm_y rWrist) (lm_y rElbow + yTolerance).

(** Exact differences again ([Double.rightArmExtended] rounds them). *)
Definition rightArmExtended (rShoulder rElbow rWrist : Landmark) : bool :=
  Qltb xToleranceShoulder (Qabs (lm_x rElbow - lm_x rShoulder))
  && Qltb xToleranceElbow (Qabs (lm_x rWrist - lm_x rElbow)).

Definition rightArmOutward (rShoulder rElbow rWrist : Landmark) : bool :=
  Qltb (lm_x rElbow) (lm_x rShoulder) && Qltb (lm_x rWrist) (lm_x rElbow).

(** The detector in exact arithmetic; [Double.checkTPose] is the same
    function over doubles.  The two can disagree only on arrays where a
    sum or difference that the script rounds lies within rounding error of
    the value it is compared with. *)
Definition checkTPose (landmarks : option Landmarks) : bool :=
  match landmarks with
  | None => false
  | Some lms =>
      let lShoulder := lookup lms L_SHOULDER in
      let rShoulder := lookup lms R_SHOULDER in
      let lElbow := lookup lms L_ELBOW in
      let rElbow := lookup lms R_ELBOW in
      let lWrist := lookup lms L_WRIST in
      let rWrist := lookup lms R_WRIST in
      if negb (forallb visibleEnough
                 [lShoulder; rShoulder; lElbow; rElbow; lWrist; rWrist])
      then false
      else
        match lShoulder, rShoulder, lElbow, rElbow, lWrist, rWrist with
        | Some lS, Some rS, Some lE, Some rE, Some lW, Some rW =>
            leftArmHorizontal lS lE lW && leftArmExtended lS lE lW
            && leftArmOutward lS lE lW
            && rightArmHorizontal rS rE rW && rightArmExtended rS rE rW
            && rightArmOutward rS rE rW
        | _, _, _, _, _, _ => false
        end
  end.

(** ** Physics bodies

    The parts of the engine's bodies and colliders that the script reads
    or writes. *)

(** Collider handles are numbers. *)
Definition Handle : Type := N.

(** The dynamic ball: [translation()], [linvel()], the angular velocity,
    and the handle of its collider ([collider(0).handle]).  [rb_inv_mass]
    is the inverse mass the engine derives from the collider's density. *)
Record RigidBody : Type := mkRigidBody {
  rb_translation : Vec3;
  rb_linvel : Vec3;
  rb_angvel : Vec3;
  rb_inv_mass : Q;
  rb_collider_handle : Handle
}.

(** [rb_translation] holds the position as the script wrote it.  The
    engine keeps each coordinate in single precision, so that
    [translation()] answers the written coordinate rounded
    ([storedTranslation], [Double.Math_fround]). *)
Definition setTranslation (p : Vec3) (b : RigidBody) : RigidBody :=
  mkRigidBody p (rb_linvel b) (rb_angvel b) (rb_inv_mass b)
    (rb_collider_handle b).

Definition setLinvel (v : Vec3) (b : RigidBody) : RigidBody :=
  mkRigidBody (rb_translation b) v (rb_angvel b) (rb_inv_mass b)
    (rb_collider_handle b).

Definition setAngvel (v : Vec3) (b : RigidBody) : RigidBody :=
  mkRigidBody (rb_translation b) (rb_linvel b) v (rb_inv_mass b)
    (rb_collider_handle b).

(** An impulse changes the linear velocity at once, scaled by the inverse
    mass. *)
Definition applyImpulse (impulse : Vec3) (b : RigidBody) : RigidBody :=
  setLinvel
    {| v_x := v_x (rb_linvel b) + v_x impulse * rb_inv_mass b;
       v_y := v_y (rb_linvel b) + v_y impulse * rb_inv_mass b;
       v_z := v_z (rb_linvel b) + v_z impulse * rb_inv_mass b |} b.

(** A position-based kinematic body: where it is, and the target that
    [setNextKinematicTranslation] left for the next step, if any. *)
Record KinematicBody : Type := mkKinematicBody {
  kb_translation : Vec3;
  kb_next_translation : option Vec3
}.

Definition setNextKinematicTranslation (p : Vec3) (b : KinematicBody)
  : KinematicBody :=
  mkKinematicBody (kb_translation b) (Some p).

(** A player collider: its [handle] and its [parent()] body. *)
Record Collider : Type := mkCollider {
  handle : Handle;
  parent : KinematicBody
}.

Record World : Type := mkWorld {
  ballBody : RigidBody;
  leftKneeCollider : Collider;
  rightKneeCollider : Collider;
  leftFootCollider : Collider;
  rightFootCollider : Collider
}.

Definition set_ballBody (b : RigidBody) (w : World) : World :=
  mkWorld b (leftKneeCollider w) (rightKneeCollider w) (leftFootCollider w)
    (rightFootCollider w).

(** A drained collision event: [(handle1, handle2, started)]. *)
Record CollisionEvent : Type := mkCollisionEvent {
  handle1 : Handle;
  handle2 : Handle;
  started : bool
}.

(** ** Scene objects *)

Record Mesh : Type := mkMesh {
  mesh_position : Vec3;
  mesh_visible : bool
}.

(** A leg line: the two points of its geometry and its visibility. *)
Record Line : Type := mkLine {
  line_from : Vec3;
  line_to : Vec3;
  line_visible : bool
}.

(** The ball mesh: its position and its material colour.  The rotation
    quaternion copied from the body each frame is not modelled. *)
Record BallMesh : Type := mkBallMesh {
  bm_position : Vec3;
  bm_color : N
}.

(** ** Constants of the script *)

Definition playerColliderRadius : Q := 0.13.
Definition footMarkerSize_h : Q := 0.12.
Definition ballRadius : Q := 0.25.
Definition groundMesh_position_y : Q := -0.5.

Definition COLLISION_BASE_IMPULSE_Y : Q := 0.7.
Definition MAX_UPWARD_VELOCITY : Q := 5.
Definition Z_DAMPING : Q := 0.8.
Definition Z_CORRECTION_FACTOR : Q := 0.1.
Definition GRAVITY_Y : Q := -8.

Definition T_POSE_DURATION_THRESHOLD_MS : Q := 700.
Definition T_POSE_RESET_COOLDOWN_MS : Q := 2000.

Definition WHITE : N := 0xffffff.
Definition GREEN : N := 0x00ff00.
Definition RED : N := 0xff0000.
Definition YELLOW : N := 0xffff00.
Definition CYAN : N := 0x00ffff.

(** The position every limb body and marker is created at. *)
Definition offStage : Vec3 := {| v_x := -10; v_y := -10; v_z := -10 |}.

(** ** The globals of the script

    [flashTimeout] and [cooldownTimeouts] hold, for each pending
    [setTimeout] callback, the earliest time at which it may run.
    [scoreElement] is the number shown in the score text,
    [tposeIndicatorElement] whether the indicator is displayed, [console]
    the lines logged so far (latest first) and [randomCalls] the number of
    [Math.random] calls made so far. *)

Record Game : Type := mkGame {
  physicsWorld : World;
  ballMesh : BallMesh;
  leftKneeMesh : Mesh;
  rightKneeMesh : Mesh;
  leftFootMesh : Mesh;
  rightFootMesh : Mesh;
  leftLegLine : Line;
  rightLegLine : Line;
  score : Z;
  ballJustHitPlayer : bool;
  lastPoseResults : option PoseResults;
  isTPosing : bool;
  tPoseStartTime : Q;
  tPoseResetCooldownActive : bool;
  flashTimeout : option Q;
  cooldownTimeouts : list Q;
  scoreElement : Z;
  tposeIndicatorElement : bool;
  console : list string;
  randomCalls : nat
}.

Definition set_physicsWorld (v : World) (g : Game) : Game :=
  mkGame v (ballMesh g) (leftKneeMesh g) (rightKneeMesh g) (leftFootMesh g)
    (rightFootMesh g) (leftLegLine g) (rightLegLine g) (score g)
    (ballJustHitPlayer g) (lastPoseResults g) (isTPosing g)
    (tPoseStartTime g) (tPoseResetCooldownActive g) (flashTimeout g)
    (cooldownTimeouts g) (scoreElement g) (tposeIndicatorElement g)
    (console g) (randomCalls g).

Definition set_ballMesh (v : BallMesh) (g : Game) : Game :=
  mkGame (physicsWorld g) v (leftKneeMesh g) (rightKneeMesh g)
    (leftFootMesh g) (rightFootMesh g) (leftLegLine g) (rightLegLine g)
    (score g) (ballJustHitPlayer g) (lastPoseResults g) (isTPosing g)
    (tPoseStartTime g) (tPoseResetCooldownActive g) (flashTimeout g)
    (cooldownTimeouts g) (scoreElement g) (tposeIndicatorElement g)
    (console g) (randomCalls g).

Definition set_leftKneeMesh (v : Mesh) (g : Game) : Game :=
  mkGame (physicsWorld g) (ballMesh g) v (rightKneeMesh g) (leftFootMesh g)
    (rightFootMesh g) (leftLegLine g) (rightLegLine g) (score g)
    (ballJustHitPlayer g) (lastPoseResults g) (isTPosing g)
    (tPoseStartTime g) (tPoseResetCooldownActive g) (flashTimeout g)
    (cooldownTimeouts g) (scoreElement g) (tposeIndicatorElement g)
    (console g) (randomCalls g).

Definition set_rightKneeMesh (v : Mesh) (g : Game) : Game :=
  mkGame (physicsWorld g) (ballMesh g) (leftKneeMesh g) v (leftFootMesh g)
    (rightFootMesh g) (leftLegLine g) (rightLegLine g) (score g)
    (ballJustHitPlayer g) (lastPoseResults g) (isTPosing g)
    (tPoseStartTime g) (tPoseResetCooldownActive g) (flashTimeout g)
    (cooldownTimeouts g) (scoreElement g) (tposeIndicatorElement g)
    (console g) (randomCalls g).

Definition set_leftFootMesh (v : Mesh) (g : Game) : Game :=
  mkGame (physicsWorld g) (ballMesh g) (leftKneeMesh g) (rightKneeMesh g) v
    (rightFootMesh g) (leftLegLine g) (rightLegLine g) (score g)
    (ballJustHitPlayer g) (lastPoseResults g) (isTPosing g)
    (tPoseStartTime g) (tPoseResetCooldownActive g) (flashTimeout g)
    (cooldownTimeouts g) (scoreElement g) (tposeIndicatorElement g)
    (console g) (randomCalls g).

Definition set_rightFootMesh (v : Mesh) (g : Game) : Game :=
  mkGame (physicsWorld g) (ballMesh g) (leftKneeMesh g) (rightKneeMesh g)
    (leftFootMesh g) v (leftLegLine g) (rightLegLine g) (score g)
    (ballJustHitPlayer g) (lastPoseResults g) (isTPosing g)
    (tPoseStartTime g) (tPoseResetCooldownActive g) (flashTimeout g)
    (cooldownTimeouts g) (scoreElement g) (tposeIndicatorElement g)
    (console g) (randomCalls g).

Definition set_leftLegLine (v : Line) (g : Game) : Game :=
  mkGame (physicsWorld g) (ballMesh g) (leftKneeMesh g) (rightKneeMesh g)
    (leftFootMesh g) (rightFootMesh g) v (rightLegLine g) (score g)
    (ballJustHitPlayer g) (lastPoseResults g) (isTPosing g)
    (tPoseStartTime g) (tPoseResetCooldownActive g) (flashTimeout g)
    (cooldownTimeouts g) (scoreElement g) (tposeIndicatorElement g)
    (console g) (randomCalls g).

Definition set_rightLegLine (v : Line) (g : Game) : Game :=
  mkGame (physicsWorld g) (ballMesh g) (leftKneeMesh g) (rightKneeMesh g)
    (leftFootMesh g) (rightFootMesh g) (leftLegLine g) v (score g)
    (ballJustHitPlayer g) (lastPoseResults g) (isTPosing g)
    (tPoseStartTime g) (tPoseResetCooldownActive g) (flashTimeout g)
    (cooldownTimeouts g) (scoreElement g) (tposeIndicatorElement g)
    (console g) (randomCalls g).

Definition set_score (v : Z) (g : Game) : Game :=
  mkGame (physicsWorld g) (ballMesh g) (leftKneeMesh g) (rightKneeMesh g)
    (leftFootMesh g) (rightFootMesh g) (leftLegLine g) (rightLegLine g) v
    (ballJustHitPlayer g) (lastPoseResults g) (isTPosing g)
    (tPoseStartTime g) (tPoseResetCooldownActive g) (flashTimeout g)
    (cooldownTimeouts g) (scoreElement g) (tposeIndicatorElement g)
    (console g) (randomCalls g).

Definition set_ballJustHitPlayer (v : bool) (g : Game) : Game :=
  mkGame (physicsWorld g) (ballMesh g) (leftKneeMesh g) (rightKneeMesh g)
    (leftFootMesh g) (rightFootMesh g) (leftLegLine g) (rightLegLine g)
    (score g) v (lastPoseResults g) (isTPosing g) (tPoseStartTime g)
    (tPoseResetCooldownActive g) (flashTimeout g) (cooldownTimeouts g)
    (scoreElement g) (tposeIndicatorElement g) (console g) (randomCalls g).

Definition set_lastPoseResults (v : option PoseResults) (g : Game) : Game :=
  mkGame (physicsWorld g) (ballMesh g) (leftKneeMesh g) (rightKneeMesh g)
    (leftFootMesh g) (rightFootMesh g) (leftLegLine g) (rightLegLine g)
    (score g) (ballJustHitPlayer g) v (isTPosing g) (tPoseStartTime g)
    (tPoseResetCooldownActive g) (flashTimeout g) (cooldownTimeouts g)
    (scoreElement g) (tposeIndicatorElement g) (console g) (randomCalls g).

Definition set_isTPosing (v : bool) (g : Game) : Game :=
  mkGame (physicsWorld g) (ballMesh g) (leftKneeMesh g) (rightKneeMesh g)
    (leftFootMesh g) (rightFootMesh g) (leftLegLine g) (rightLegLine g)
    (score g) (ballJustHitPlayer g) (lastPoseResults g) v (tPoseStartTime g)
    (tPoseResetCooldownActive g) (flashTimeout g) (cooldownTimeouts g)
    (scoreElement g) (tposeIndicatorElement g) (console g) (randomCalls g).

Definition set_tPoseStartTime (v : Q) (g : Game) : Game :=
  mkGame (physicsWorld g) (ballMesh g) (leftKneeMesh g) (rightKneeMesh g)
    (leftFootMesh g) (rightFootMesh g) (leftLegLine g) (rightLegLine g)
    (score g) (ballJustHitPlayer g) (lastPoseResults g) (isTPosing g) v
    (tPoseResetCooldownActive g) (flashTimeout g) (cooldownTimeouts g)
    (scoreElement g) (tposeIndicatorElement g) (console g) (randomCalls g).

Definition set_tPoseResetCooldownActive (v : bool) (g : Game) : Game :=
  mkGame (physicsWorld g) (ballMesh g) (leftKneeMesh g) (rightKneeMesh g)
    (leftFootMesh g) (rightFootMesh g) (leftLegLine g) (rightLegLine g)
    (score g) (ballJustHitPlayer g) (lastPoseResults g) (isTPosing g)
    (tPoseStartTime g) v (flashTimeout g) (cooldownTimeouts g)
    (scoreElement g) (tposeIndicatorElement g) (console g) (randomCalls g).

Definition set_flashTimeout (v : option Q) (g : Game) : Game :=
  mkGame (physicsWorld g) (ballMesh g) (leftKneeMesh g) (rightKneeMesh g)
    (leftFootMesh g) (rightFootMesh g) (leftLegLine g) (rightLegLine g)
    (score g) (ballJustHitPlayer g) (lastPoseResults g) (isTPosing g)
    (tPoseStartTime g) (tPoseResetCooldownActive g) v (cooldownTimeouts g)
    (scoreElement g) (tposeIndicatorElement g) (console g) (randomCalls g).

Definition set_cooldownTimeouts (v : list Q) (g : Game) : Game :=
  mkGame (physicsWorld g) (ballMesh g) (leftKneeMesh g) (rightKneeMesh g)
    (leftFootMesh g) (rightFootMesh g) (leftLegLine g) (rightLegLine g)
    (score g) (ballJustHitPlayer g) (lastPoseResults g) (isTPosing g)
    (tPoseStartTime g) (tPoseResetCooldownActive g) (flashTimeout g) v
    (scoreElement g) (tposeIndicatorElement g) (console g) (randomCalls g).

Definition set_scoreElement (v : Z) (g : Game) : Game :=
  mkGame (physicsWorld g) (ballMesh g) (leftKneeMesh g) (rightKneeMesh g)
    (leftFootMesh g) (rightFootMesh g) (leftLegLine g) (rightLegLine g)
    (score g) (ballJustHitPlayer g) (lastPoseResults g) (isTPosing g)
    (tPoseStartTime g) (tPoseResetCooldownActive g) (flashTimeout g)
    (cooldownTimeouts g) v (tposeIndicatorElement g) (console g)
    (randomCalls g).

Definition set_tposeIndicatorElement (v : bool) (g : Game) : Game :=
  mkGame (physicsWorld g) (ballMesh g) (leftKneeMesh g) (rightKneeMesh g)
    (leftFootMesh g) (rightFootMesh g) (leftLegLine g) (rightLegLine g)
    (score g) (ballJustHitPlayer g) (lastPoseResults g) (isTPosing g)
    (tPoseStartTime g) (tPoseResetCooldownActive g) (flashTimeout g)
    (cooldownTimeouts g) (scoreElement g) v (console g) (randomCalls g).

Definition set_console (v : list string) (g : Game) : Game :=
  mkGame (physicsWorld g) (ballMesh g) (leftKneeMesh g) (rightKneeMesh g)
    (leftFootMesh g) (rightFootMesh g) (leftLegLine g) (rightLegLine g)
    (score g) (ballJustHitPlayer g) (lastPoseResults g) (isTPosing g)
    (tPoseStartTime g) (tPoseResetCooldownActive g) (flashTimeout g)
    (cooldownTimeouts g) (scoreElement g) (tposeIndicatorElement g) v
    (randomCalls g).

Definition set_randomCalls (v : nat) (g : Game) : Game :=
  mkGame (physicsWorld g) (ballMesh g) (leftKneeMesh g) (rightKneeMesh g)
    (leftFootMesh g) (rightFootMesh g) (leftLegLine g) (rightLegLine g)
    (score g) (ballJustHitPlayer g) (lastPoseResults g) (isTPosing g)
    (tPoseStartTime g) (tPoseResetCooldownActive g) (flashTimeout g)
    (cooldownTimeouts g) (scoreElement g) (tposeIndicatorElement g)
    (console g) v.

Definition set_leftKneeCollider (c : Collider) (w : World) : World :=
  mkWorld (ballBody w) c (rightKneeCollider w) (leftFootCollider w)
    (rightFootCollider w).

Definition set_rightKneeCollider (c : Collider) (w : World) : World :=
  mkWorld (ballBody w) (leftKneeCollider w) c (leftFootCollider w)
    (rightFootCollider w).

Definition set_leftFootCollider (c : Collider) (w : World) : World :=
  mkWorld (ballBody w) (leftKneeCollider w) (rightKneeCollider w) c
    (rightFootCollider w).

Definition set_rightFootCollider (c : Collider) (w : World) : World :=
  mkWorld (ballBody w) (leftKneeCollider w) (rightKneeCollider w)
    (leftFootCollider w) c.

(** Apply a mutation to the ball body of the game. *)
Definition onBallBody (f : RigidBody -> RigidBody) (g : Game) : Game :=
  set_physicsWorld
    (set_ballBody (f (ballBody (physicsWorld g))) (physicsWorld g)) g.

(** [console.log(msg)]. *)
Definition console_log (msg : string) (g : Game) : Game :=
  set_console (msg :: console g) g.

(** ** Helper functions of the script *)

Definition updateKinematicCollider (collider : Collider)
    (targetPos : option Vec3) : Collider :=
  match targetPos with
  | Some p =>
      mkCollider (handle collider)
        (setNextKinematicTranslation p (parent collider))
  | None => collider
  end.

(** [isFoot] is the test [mesh === leftFootMesh || mesh === rightFootMesh]. *)
Definition updateMarkerMesh (isFoot : bool) (mesh : Mesh)
    (targetPos : option Vec3) : Mesh :=
  match targetPos with
  | Some p =>
      let position :=
        if isFoot
        then {| v_x := v_x p; v_y := v_y p - footMarkerSize_h / 3;
                v_z := v_z p |}
        else p in
      mkMesh position true
  | None => mkMesh (mesh_position mesh) false
  end.

Definition updateLegLine (line : Line) (kneeMesh footMesh : Mesh) : Line :=
  if mesh_visible kneeMesh && mesh_visible footMesh
  then mkLine (mesh_position kneeMesh) (mesh_position footMesh) true
  else mkLine (line_from line) (line_to line) false.

Definition updateScore (g : Game) : Game :=
  set_scoreElement (score g) g.

(** [flashBallColor(color, durationMs)], called at time [now]: a pending
    flash timer is replaced, never added to. *)
Definition flashBallColor (now : Q) (color : N) (durationMs : Q) (g : Game)
  : Game :=
  let g := set_ballMesh (mkBallMesh (bm_position (ballMesh g)) color) g in
  set_flashTimeout (Some (now + durationMs)) g.

(** The callback of the flash timer. *)
Definition flashTimeoutCallback (g : Game) : Game :=
  let g := set_ballMesh (mkBallMesh (bm_position (ballMesh g)) WHITE) g in
  set_flashTimeout None g.

(** The callback of the cooldown timer. *)
Definition cooldownTimeoutCallback (g : Game) : Game :=
  let g := set_tPoseResetCooldownActive false g in
  console_log "T-Pose reset cooldown finished." g.

(** [onPoseResults(results)]; the overlay drawing is not modelled. *)
Definition onPoseResults (results : PoseResults) (g : Game) : Game :=
  set_lastPoseResults (Some results) g.

(** [lastPoseResults && lastPoseResults.poseLandmarks]. *)
Definition currentLandmarks (g : Game) : option Landmarks :=
  match lastPoseResults g with
  | Some results => poseLandmarks results
  | None => None
  end.

(** What the engine does on one [physicsWorld.step(eventQueue)]: the world
    after the step and the events the queue then drains, in order. *)
Definition EngineStep : Type := World -> World * list CollisionEvent.

Section Engine.

(** The step of the current frame. *)
Variable world_step : EngineStep.

(** [Math.random()], by the number of earlier calls. *)
Variable random : nat -> Q.

Definition Math_random (g : Game) : Q * Game :=
  (random (randomCalls g), set_randomCalls (S (randomCalls g)) g).

Definition resetBall (spawnX spawnZ : option Q) (g : Game) : Game :=
  let '(startX, g) :=
    match spawnX with
    | Some sx => (sx, g)
    | None => let '(r, g) := Math_random g in ((r - 0.5) * 1.0, g)
    end in
  let '(startZ, g) :=
    match spawnZ with
    | Some sz => (sz, g)
    | None => let '(r, g) := Math_random g in ((r - 0.5) * 0.2, g)
    end in
  let startY := 4.0 in
  let g :=
    onBallBody (setTranslation {| v_x := startX; v_y := startY;
                                  v_z := startZ |}) g in
  let g := onBallBody (setLinvel {| v_x := 0; v_y := -0.5; v_z := 0 |}) g in
  let g := onBallBody (setAngvel {| v_x := 0; v_y := 0; v_z := 0 |}) g in
  let g := set_ballMesh (mkBallMesh (bm_position (ballMesh g)) WHITE) g in
  set_ballJustHitPlayer false g.

(** ** animate, part 0: the T-pose reset *)

(** The body of [if (duration >= T_POSE_DURATION_THRESHOLD_MS)]. *)
Definition triggerReset (elapsedTimeMs : Q) (landmarks : Landmarks)
    (g : Game) : Game :=
  let g := console_log "T-Pose Detected for 1 second! Resetting." g in
  let lShoulderPos := mapLandmarkToWorld (lookup landmarks L_SHOULDER) in
  let rShoulderPos := mapLandmarkToWorld (lookup landmarks R_SHOULDER) in
  let spawnX :=
    match lShoulderPos, rShoulderPos with
    | Some l, Some r => Some ((v_x l + v_x r) / 2)
    | _, _ => None
    end in
  let spawnZ : option Q := None in
  let g := resetBall spawnX spawnZ g in
  let g := set_score 0%Z g in
  let g := updateScore g in
  let g := set_isTPosing false g in
  let g := set_tposeIndicatorElement false g in
  let g := set_tPoseResetCooldownActive true g in
  let g := flashBallColor elapsedTimeMs CYAN 300 g in
  set_cooldownTimeouts
    (cooldownTimeouts g ++ [elapsedTimeMs + T_POSE_RESET_COOLDOWN_MS]) g.

Definition checkForTPoseReset (elapsedTimeMs : Q) (g : Game) : Game :=
  match currentLandmarks g, tPoseResetCooldownActive g with
  | Some landmarks, false =>
      let currentPoseIsT := checkTPose (Some landmarks) in
      if currentPoseIsT then
        if negb (isTPosing g) then
          let g := set_isTPosing true g in
          let g := set_tPoseStartTime elapsedTimeMs g in
          set_tposeIndicatorElement true g
        else
          let duration := elapsedTimeMs - tPoseStartTime g in
          if Qle_bool T_POSE_DURATION_THRESHOLD_MS duration
          then triggerReset elapsedTimeMs landmarks g
          else g
      else
        if isTPosing g then
          let g := set_isTPosing false g in
          set_tposeIndicatorElement false g
        else g
  | _, _ =>
      if isTPosing g then
        let g := set_isTPosing false g in
        set_tposeIndicatorElement false g
      else g
  end.

(** ** animate, part 1: kinematic colliders and marker meshes *)

Definition updatePlayer (g : Game) : Game :=
  match currentLandmarks g with
  | Some landmarks =>
      let leftKneePos := mapLandmarkToWorld (lookup landmarks L_KNEE) in
      let rightKneePos := mapLandmarkToWorld (lookup landmarks R_KNEE) in
      let leftFootPos := mapLandmarkToWorld (lookup landmarks L_ANKLE) in
      let rightFootPos := mapLandmarkToWorld (lookup landmarks R_ANKLE) in
      let w := physicsWorld g in
      let w := set_leftKneeCollider
                 (updateKinematicCollider (leftKneeCollider w) leftKneePos)
                 w in
      let w := set_rightKneeCollider
                 (updateKinematicCollider (rightKneeCollider w) rightKneePos)
                 w in
      let w := set_leftFootCollider
                 (updateKinematicCollider (leftFootCollider w) leftFootPos)
                 w in
      let w := set_rightFootCollider
                 (updateKinematicCollider (rightFootCollider w) rightFootPos)
                 w in
      let g := set_physicsWorld w g in
      let g := set_leftKneeMesh
                 (updateMarkerMesh false (leftKneeMesh g) leftKneePos) g in
      let g := set_rightKneeMesh
                 (updateMarkerMesh false (rightKneeMesh g) rightKneePos) g in
      let g := set_leftFootMesh
                 (updateMarkerMesh true (leftFootMesh g) leftFootPos) g in
      let g := set_rightFootMesh
                 (updateMarkerMesh true (rightFootMesh g) rightFootPos) g in
      let g := set_leftLegLine
                 (updateLegLine (leftLegLine g) (leftKneeMesh g)
                    (leftFootMesh g)) g in
      set_rightLegLine
        (updateLegLine (rightLegLine g) (rightKneeMesh g) (rightFootMesh g))
        g
  | None =>
      let hideMesh (m : Mesh) := mkMesh (mesh_position m) false in
      let hideLine (l : Line) := mkLine (line_from l) (line_to l) false in
      let g := set_leftKneeMesh (hideMesh (leftKneeMesh g)) g in
      let g := set_rightKneeMesh (hideMesh (rightKneeMesh g)) g in
      let g := set_leftFootMesh (hideMesh (leftFootMesh g)) g in
      let g := set_rightFootMesh (hideMesh (rightFootMesh g)) g in
      let g := set_leftLegLine (hideLine (leftLegLine g)) g in
      set_rightLegLine (hideLine (rightLegLine g)) g
  end.

(** ** animate, part 2: physics step and collision events *)

(** [playerHandles.includes(h)]. *)
Definition includes (handles : list Handle) (h : Handle) : bool :=
  existsb (N.eqb h) handles.

(** The callback handed to [drainCollisionEvents], run at time
    [elapsedTimeMs]. *)
Definition collisionCallback (elapsedTimeMs : Q) (g : Game)
    (ev : CollisionEvent) : Game :=
  let w := physicsWorld g in
  let ballColliderHandle := rb_collider_handle (ballBody w) in
  let playerHandles :=
    [handle (leftKneeCollider w); handle (rightKneeCollider w);
     handle (leftFootCollider w); handle (rightFootCollider w)] in
  let collidedWithPlayer :=
    if N.eqb (handle1 ev) ballColliderHandle
       && includes playerHandles (handle2 ev)
    then true
    else if N.eqb (handle2 ev) ballColliderHandle
            && includes playerHandles (handle1 ev)
    then true
    else false in
  if started ev && collidedWithPlayer && negb (ballJustHitPlayer g) then
    let g := set_score (score g + 1)%Z g in
    let g := updateScore g in
    let g := set_ballJustHitPlayer true g in
    let impulse :=
      {| v_x := 0; v_y := COLLISION_BASE_IMPULSE_Y; v_z := 0 |} in
    let g := onBallBody (applyImpulse impulse) g in
    flashBallColor elapsedTimeMs GREEN 150 g
  else g.

Definition drainCollisionEvents (elapsedTimeMs : Q)
    (events : list CollisionEvent) (g : Game) : Game :=
  fold_left (collisionCallback elapsedTimeMs) events g.

Definition stepPhysics (elapsedTimeMs : Q) (g : Game) : Game :=
  let '(w, events) := world_step (physicsWorld g) in
  let g := set_physicsWorld w g in
  drainCollisionEvents elapsedTimeMs events g.

(** ** animate, parts 3 to 7: post-physics adjustments *)

(** Part 4.  [currentLinvel] is the local variable of [animate]; it is read
    back from the body after a clamp. *)
Definition clampMaximumUpwardVelocity (currentLinvel : Vec3) (g : Game)
  : Game * Vec3 :=
  if Qltb MAX_UPWARD_VELOCITY (v_y currentLinvel) then
    let g :=
      onBallBody
        (setLinvel {| v_x := v_x currentLinvel; v_y := MAX_UPWARD_VELOCITY;
                      v_z := v_z currentLinvel |}) g in
    (g, rb_linvel (ballBody (physicsWorld g)))
  else (g, currentLinvel).

(** Part 5. *)
Definition resetHitFlag (currentLinvel ballPosition : Vec3) (g : Game)
  : Game :=
  if Qltb (v_y currentLinvel) (-0.1) || Qltb (v_y ballPosition) 0.5
  then set_ballJustHitPlayer false g
  else g.

(** Part 6. *)
Definition constrainZAxisMovement (currentLinvel ballPosition : Vec3)
    (g : Game) : Game :=
  let newZVel :=
    v_z currentLinvel * Z_DAMPING - v_z ballPosition * Z_CORRECTION_FACTOR in
  onBallBody
    (setLinvel {| v_x := v_x currentLinvel; v_y := v_y currentLinvel;
                  v_z := newZVel |}) g.

(** Part 7. *)
Definition gameLogic (elapsedTimeMs : Q) (ballPosition : Vec3) (g : Game)
  : Game :=
  let groundLevel := groundMesh_position_y + ballRadius in
  if Qltb (v_y ballPosition) groundLevel
     && negb (tPoseResetCooldownActive g) then
    let g := resetBall None None g in
    let g := set_score 0%Z g in
    let g := updateScore g in
    let g := set_ballJustHitPlayer false g in
    flashBallColor elapsedTimeMs RED 250 g
  else if Qltb 8 (v_y ballPosition)
          || Qltb 5 (Qabs (v_x ballPosition))
          || Qltb 2 (Qabs (v_z ballPosition)) then
    let g := resetBall None None g in
    let g := set_ballJustHitPlayer false g in
    flashBallColor elapsedTimeMs YELLOW 250 g
  else g.

(** Parts 3 to 7 share the locals [ballPosition] and [currentLinvel]. *)
Definition postPhysics (elapsedTimeMs : Q) (g : Game) : Game :=
  let ballPosition := rb_translation (ballBody (physicsWorld g)) in
  let g := set_ballMesh (mkBallMesh ballPosition (bm_color (ballMesh g))) g in
  let currentLinvel := rb_linvel (ballBody (physicsWorld g)) in
  let '(g, currentLinvel) := clampMaximumUpwardVelocity currentLinvel g in
  let g := resetHitFlag currentLinvel ballPosition g in
  let g := constrainZAxisMovement currentLinvel ballPosition g in
  gameLogic elapsedTimeMs ballPosition g.

(** ** animate *)

Definition animate (elapsedTimeMs : Q) (g : Game) : Game :=
  let g := checkForTPoseReset elapsedTimeMs g in
  let g := updatePlayer g in
  let g := stepPhysics elapsedTimeMs g in
  postPhysics elapsedTimeMs g.

End Engine.

(** ** Browser callbacks

    What the browser may run, each at a time of the game clock: a pose
    result, an animation frame, or a due timer.  An animation frame comes
    with what the engine does on the step of that frame.
    [cooldownTimeout i] runs the [i]-th pending cooldown callback; a timer
    that is not due, or is not pending, does not run. *)
Inductive Callback : Type :=
  | PoseResult (results : PoseResults)
  | AnimationFrame (world_step : EngineStep)
  | cooldownTimeout (i : nat)
  | flashTimer.

(** The list without its [i]-th entry. *)
Fixpoint removeNth {A : Type} (i : nat) (l : list A) : list A :=
  match l, i with
  | [], _ => []
  | _ :: rest, O => rest
  | a :: rest, S j => a :: removeNth j rest
  end.

Definition dispatch (random : nat -> Q) (g : Game) (event : Q * Callback)
  : Game :=
  let '(now, callback) := event in
  match callback with
  | PoseResult results => onPoseResults results g
  | AnimationFrame world_step => animate world_step random now g
  | cooldownTimeout i =>
      match nth_error (cooldownTimeouts g) i with
      | Some due =>
          if Qle_bool due now
          then cooldownTimeoutCallback
                 (set_cooldownTimeouts (removeNth i (cooldownTimeouts g)) g)
          else g
      | None => g
      end
  | flashTimer =>
      match flashTimeout g with
      | Some due => if Qle_bool due now then flashTimeoutCallback g else g
      | None => g
      end
  end.

Definition run (random : nat -> Q) (g : Game)
    (events : list (Q * Callback)) : Game :=
  fold_left (dispatch random) events g.


(** ** Notions the properties are stated with *)

(** The band reading of "horizontal": each joint within [yTolerance] of the
    previous one, above or below. *)
Definition withinBand (a b : Q) : Prop := Qabs (a - b) <= yTolerance.

Definition armInBand (shoulder elbow wrist : Landmark) : Prop :=
  withinBand (lm_y elbow) (lm_y shoulder)
  /\ withinBand (lm_y wrist) (lm_y elbow).

(** Mirroring the horizontal coordinate of a landmark. *)
Definition mirrorX (lm : Landmark) : Landmark :=
  mkLandmark (1 - lm_x lm) (lm_y lm) (lm_z lm) (lm_visibility lm).

(** The index of the opposite-side arm joint; other indices stay. *)
Definition swapIndex (i : nat) : nat :=
  match i with
  | 11 => 12 | 12 => 11
  | 13 => 14 | 14 => 13
  | 15 => 16 | 16 => 15
  | _ => i
  end%nat.

(** The landmark array with the left and right shoulder, elbow and wrist
    entries exchanged and every entry mirrored.  As an assignment to an
    index past the end of a JavaScript array would, the exchange extends a
    short array (with [undefined] entries) up to the last arm joint. *)
Definition swapAndMirror (landmarks : Landmarks) : Landmarks :=
  map (fun i => option_map mirrorX (lookup landmarks (swapIndex i)))
      (seq 0 (Nat.max (List.length landmarks) 17)).

(** The gesture resets logged so far. *)
Definition tPoseResetMessage : string :=
  "T-Pose Detected for 1 second! Resetting.".

Definition gestureResets (g : Game) : nat :=
  count_occ string_dec (console g) tPoseResetMessage.

(** Every pending cooldown timer belongs to the cooldown in progress: at
    most one is pending, and none while the cooldown flag is clear. *)
Definition cooldownTimersTracked (g : Game) : Prop :=
  (tPoseResetCooldownActive g = false -> cooldownTimeouts g = [])
  /\ (List.length (cooldownTimeouts g) <= 1)%nat.

(** The hold tracking is in [Holding] since time [t0], on a snapshot that
    shows a T-pose, with [c] gesture resets logged. *)
Definition holding (t0 : Q) (c : nat) (g : Game) : Prop :=
  checkTPose (currentLandmarks g) = true
  /\ isTPosing g = true
  /\ tPoseStartTime g = t0
  /\ tPoseResetCooldownActive g = false
  /\ gestureResets g = c.

(** The cooldown of a gesture reset at time [t0] is in progress, with [c]
    gesture resets logged: the flag is set and no pending cooldown timer is
    due before [t0 + 2000]. *)
Definition coolingDown (t0 : Q) (c : nat) (g : Game) : Prop :=
  tPoseResetCooldownActive g = true
  /\ Forall (fun due => t0 + T_POSE_RESET_COOLDOWN_MS <= due)
        (cooldownTimeouts g)
  /\ gestureResets g = c.

(** A start-type ball-limb event of a world: [started] is set and the pair
    is the ball collider with one of the four limb colliders, in either
    order. *)
Definition ballLimbStart (w : World) (ev : CollisionEvent) : bool :=
  let limbs :=
    [handle (leftKneeCollider w); handle (rightKneeCollider w);
     handle (leftFootCollider w); handle (rightFootCollider w)] in
  let ball := rb_collider_handle (ballBody w) in
  started ev
  && ((N.eqb (handle1 ev) ball && existsb (N.eqb (handle2 ev)) limbs)
      || (N.eqb (handle2 ev) ball && existsb (N.eqb (handle1 ev)) limbs)).

(** The state of the ball and of the hit flag that a reset leaves. *)
Definition freshlyReset (g : Game) : Prop :=
  let b := ballBody (physicsWorld g) in
  v_y (rb_translation b) == 4.0
  /\ rb_linvel b = {| v_x := 0; v_y := -0.5; v_z := 0 |}
  /\ rb_angvel b = {| v_x := 0; v_y := 0; v_z := 0 |}
  /\ ballJustHitPlayer g = false.

(** The ball position is beyond the upper, side or depth bound. *)
Definition outOfBounds (p : Vec3) : bool :=
  Qltb 8 (v_y p) || Qltb 5 (Qabs (v_x p)) || Qltb 2 (Qabs (v_z p)).

(** Every pose result among the events shows a T-pose. *)
Definition allTPose (events : list (Q * Callback)) : Prop :=
  forallb (fun event =>
             match snd event with
             | PoseResult results => checkTPose (poseLandmarks results)
             | _ => true
             end) events = true.

(** The animation frames among the events come at strictly increasing
    times, all after [prev]. *)
Fixpoint increasingFrames (prev : Q) (events : list (Q * Callback)) : Prop :=
  match events with
  | [] => True
  | (t, AnimationFrame _) :: rest => prev < t /\ increasingFrames t rest
  | _ :: rest => increasingFrames prev rest
  end.

(** Two states agree on everything the hold tracking reads or writes: the
    pose snapshot, the hold state, the cooldown flag and its timers, and
    the console. *)
Definition sameGesture (g g' : Game) : Prop :=
  lastPoseResults g' = lastPoseResults g
  /\ isTPosing g' = isTPosing g
  /\ tPoseStartTime g' = tPoseStartTime g
  /\ tPoseResetCooldownActive g' = tPoseResetCooldownActive g
  /\ cooldownTimeouts g' = cooldownTimeouts g
  /\ console g' = console g.

(** The state that part 7 starts from. *)
Definition beforeGameLogic (g : Game) : Game :=
  let ballPosition := rb_translation (ballBody (physicsWorld g)) in
  let g := set_ballMesh (mkBallMesh ballPosition (bm_color (ballMesh g))) g in
  let currentLinvel := rb_linvel (ballBody (physicsWorld g)) in
  let s := clampMaximumUpwardVelocity currentLinvel g in
  constrainZAxisMovement (snd s) ballPosition
    (resetHitFlag (snd s) ballPosition (fst s)).

(** ** Sample data *)

(** The game as the init functions leave it.  Colliders are numbered in the
    order of their creation (ground first); [invMass] is the inverse mass
    of the ball. *)
Definition initialGame (invMass : Q) : Game :=
  let limb (h : Handle) := mkCollider h (mkKinematicBody offStage None) in
  let ballStart := {| v_x := 0; v_y := 4.0; v_z := 0 |} in
  let zero := {| v_x := 0; v_y := 0; v_z := 0 |} in
  {| physicsWorld :=
       mkWorld (mkRigidBody ballStart zero zero invMass 1%N)
         (limb 2%N) (limb 3%N) (limb 4%N) (limb 5%N);
     ballMesh := mkBallMesh ballStart WHITE;
     leftKneeMesh := mkMesh offStage true;
     rightKneeMesh := mkMesh offStage true;
     leftFootMesh := mkMesh offStage true;
     rightFootMesh := mkMesh offStage true;
     leftLegLine := mkLine zero zero false;
     rightLegLine := mkLine zero zero false;
     score := 0%Z;
     ballJustHitPlayer := false;
     lastPoseResults := None;
     isTPosing := false;
     tPoseStartTime := 0;
     tPoseResetCooldownActive := false;
     flashTimeout := None;
     cooldownTimeouts := [];
     scoreElement := 0%Z;
     tposeIndicatorElement := false;
     console := [];
     randomCalls := 0%nat |}.

(** An engine that only drives each limb body to its pending target. *)
Definition kinematic_step : EngineStep := fun w =>
  let advance (c : Collider) :=
    match kb_next_translation (parent c) with
    | Some p => mkCollider (handle c) (mkKinematicBody p None)
    | None => c
    end in
  (mkWorld (ballBody w) (advance (leftKneeCollider w))
     (advance (rightKneeCollider w)) (advance (leftFootCollider w))
     (advance (rightFootCollider w)), []).

(** A random source that always answers [0.25]. *)
Definition quarter_random (n : nat) : Q := 0.25.

(** A 33-entry landmark array from the six arm joints and the four leg
    joints; every other entry is a landmark of visibility 0. *)
Definition pose (lS rS lE rE lW rW lK rK lA rA : Landmark) : Landmarks :=
  let other := Some (mkLandmark 0.5 0.5 0 0) in
  repeat other 11 ++ map Some [lS; rS; lE; rE; lW; rW]
  ++ repeat other 8 ++ map Some [lK; rK; lA; rA] ++ repeat other 4.

(** Arms straight out to the sides, legs in view. *)
Definition tPoseLandmarks : Landmarks :=
  pose (mkLandmark 0.6 0.3 0 0.9) (mkLandmark 0.4 0.3 0 0.9)
       (mkLandmark 0.75 0.3 0 0.9) (mkLandmark 0.25 0.3 0 0.9)
       (mkLandmark 0.9 0.3 0 0.9) (mkLandmark 0.1 0.3 0 0.9)
       (mkLandmark 0.55 0.7 0 0.9) (mkLandmark 0.45 0.7 0 0.9)
       (mkLandmark 0.55 0.9 0 0.9) (mkLandmark 0.45 0.9 0 0.9).

(** Arms raised in a V: each elbow 0.35 above its shoulder, each wrist 0.35
    above its elbow. *)
Definition raisedArmsLandmarks : Landmarks :=
  pose (mkLandmark 0.6 0.8 0 0.9) (mkLandmark 0.4 0.8 0 0.9)
       (mkLandmark 0.75 0.45 0 0.9) (mkLandmark 0.25 0.45 0 0.9)
       (mkLandmark 0.9 0.1 0 0.9) (mkLandmark 0.1 0.1 0 0.9)
       (mkLandmark 0.55 0.7 0 0.9) (mkLandmark 0.45 0.7 0 0.9)
       (mkLandmark 0.55 0.9 0 0.9) (mkLandmark 0.45 0.9 0 0.9).

(** Arms at the sides; the left knee out of view (visibility 0.1). *)
Definition hiddenKneeLandmarks : Landmarks :=
  pose (mkLandmark 0.6 0.3 0 0.9) (mkLandmark 0.4 0.3 0 0.9)
       (mkLandmark 0.6 0.45 0 0.9) (mkLandmark 0.4 0.45 0 0.9)
       (mkLandmark 0.6 0.6 0 0.9) (mkLandmark 0.4 0.6 0 0.9)
       (mkLandmark 0.55 0.7 0 0.1) (mkLandmark 0.45 0.7 0 0.9)
       (mkLandmark 0.55 0.9 0 0.9) (mkLandmark 0.45 0.9 0 0.9).

(** The same stance with every leg joint in view. *)
Definition standingLandmarks : Landmarks :=
  pose (mkLandmark 0.6 0.3 0 0.9) (mkLandmark 0.4 0.3 0 0.9)
       (mkLandmark 0.6 0.45 0 0.9) (mkLandmark 0.4 0.45 0 0.9)
       (mkLandmark 0.6 0.6 0 0.9) (mkLandmark 0.4 0.6 0 0.9)
       (mkLandmark 0.55 0.7 0 0.9) (mkLandmark 0.45 0.7 0 0.9)
       (mkLandmark 0.55 0.9 0 0.9) (mkLandmark 0.45 0.9 0 0.9).


(** Pose results around the sample arrays. *)
Definition tPoseResults : PoseResults := mkPoseResults (Some tPoseLandmarks).
Definition standingResults : PoseResults :=
  mkPoseResults (Some standingLandmarks).
Definition hiddenKneeResults : PoseResults :=
  mkPoseResults (Some hiddenKneeLandmarks).
Definition noLandmarksResults : PoseResults := mkPoseResults None.

(** The sample game: limbs driven by [kinematic_step], an inverse ball mass
    of 14, and [quarter_random]. *)
Definition sampleRun (g : Game) (events : list (Q * Callback)) : Game :=
  run quarter_random g events.

(** The player stands in view for one frame: every limb is tracked. *)
Definition trackedGame : Game :=
  sampleRun (initialGame 14)
    [(0, PoseResult standingResults); (16, AnimationFrame kinematic_step)].

(** Then the left knee leaves the view for a frame. *)
Definition hiddenKneeGame : Game :=
  sampleRun trackedGame
    [(20, PoseResult hiddenKneeResults); (33, AnimationFrame kinematic_step)].

(** Or the pose source reports no landmarks at all for a frame. *)
Definition lostPoseGame : Game :=
  sampleRun trackedGame
    [(20, PoseResult noLandmarksResults); (33, AnimationFrame kinematic_step)].

(** The player holds a T-pose from time 1000, two frames in. *)
Definition holdingGame : Game :=
  sampleRun (initialGame 14)
    [(900, PoseResult tPoseResults); (1000, AnimationFrame kinematic_step);
     (1400, AnimationFrame kinematic_step)].

(** ** Further code: the overlay landmarks of onPoseResults *)

(** [results.poseLandmarks.map((landmark, index) => ...)]: a landmark of
    index 11 or more is kept, an earlier one is copied with visibility 0.
    Reading [landmark.x] of an [undefined] entry throws; [None] is that
    [TypeError]. *)
Fixpoint bodyLandmarksFrom (index : nat) (landmarks : Landmarks)
  : option Landmarks :=
  match landmarks with
  | [] => Some []
  | landmark :: rest =>
      let mapped :=
        if (11 <=? index)%nat then Some landmark
        else
          match landmark with
          | Some lm => Some (Some (mkLandmark (lm_x lm) (lm_y lm) (lm_z lm) 0))
          | None => None
          end in
      match mapped with
      | Some entry =>
          match bodyLandmarksFrom (S index) rest with
          | Some entries => Some (entry :: entries)
          | None => None
          end
      | None => None
      end
  end.

Definition bodyLandmarks (landmarks : Landmarks) : option Landmarks :=
  bodyLandmarksFrom 0 landmarks.

(** [results.poseLandmarks.filter((_, index) => index >= 11)]. *)
Fixpoint filteredLandmarksFrom (index : nat) (landmarks : Landmarks)
  : Landmarks :=
  match landmarks with
  | [] => []
  | landmark :: rest =>
      if (11 <=? index)%nat
      then landmark :: filteredLandmarksFrom (S index) rest
      else filteredLandmarksFrom (S index) rest
  end.

Definition filteredLandmarks (landmarks : Landmarks) : Landmarks :=
  filteredLandmarksFrom 0 landmarks.

(** ** Further code: the instructions overlay *)

(** Whether the overlay carries the class [visible], and the pending
    [instructionsTimeout] (the earliest time its callback may run). *)
Record Instructions : Type := mkInstructions {
  overlayVisible : bool;
  instructionsTimeout : option Q
}.

(** [showInstructions()], called at time [now]. *)
Definition showInstructions (now : Q) (o : Instructions) : Instructions :=
  mkInstructions true (Some (now + 10000)).

Definition hideInstructions (o : Instructions) : Instructions :=
  mkInstructions false None.

(** What the browser may run on the overlay: a click on the button, a click
    on the overlay, or the timer callback when it is pending and due. *)
Inductive InstructionsEvent : Type :=
  | buttonClick
  | overlayClick
  | instructionsTimer.

Definition dispatchInstructions (o : Instructions)
    (event : Q * InstructionsEvent) : Instructions :=
  let '(now, e) := event in
  match e with
  | buttonClick => showInstructions now o
  | overlayClick => hideInstructions o
  | instructionsTimer =>
      match instructionsTimeout o with
      | Some due => if Qle_bool due now then hideInstructions o else o
      | None => o
      end
  end.

Definition runInstructions (o : Instructions)
    (events : list (Q * InstructionsEvent)) : Instructions :=
  fold_left dispatchInstructions events o.

(** ** Further notions *)

(** What [translation()] answers for a body: the engine keeps the
    coordinates it is given in single precision, and [stored] is that
    rounding. *)
Definition storedTranslation (stored : Q -> Q) (b : RigidBody) : Vec3 :=
  {| v_x := stored (v_x (rb_translation b));
     v_y := stored (v_y (rb_translation b));
     v_z := stored (v_z (rb_translation b)) |}.

(** A sample rounding: to the nearest multiple of 2^-24, the spacing of
    the single-precision numbers between 0.5 and 1. *)
Definition toGrid (q : Q) : Q :=
  inject_Z (Qfloor (q * 16777216 + 0.5)) / 16777216.

(** The events come in the order of their times, none before [prev]. *)
Fixpoint chronological {E : Type} (prev : Q) (events : list (Q * E)) : Prop :=
  match events with
  | [] => True
  | (t, _) :: rest => prev <= t /\ chronological t rest
  end.

(** The indicator is displayed exactly while a hold is tracked. *)
Definition indicatorShowsHold (g : Game) : Prop :=
  tposeIndicatorElement g = isTPosing g.

(** The score text shows the score. *)
Definition scoreShown (g : Game) : Prop := scoreElement g = score g.

(** The ball is white unless a flash timer is pending. *)
Definition whiteUnlessFlashing (g : Game) : Prop :=
  flashTimeout g = None -> bm_color (ballMesh g) = WHITE.

(** Since the gesture reset at [t0], at time [last]: either the cooldown is
    in progress and no hold is tracked, or 2000 ms have passed and any hold
    tracked began after them. *)
Definition sinceReset (t0 last : Q) (g : Game) : Prop :=
  Forall (fun due => t0 + T_POSE_RESET_COOLDOWN_MS <= due)
    (cooldownTimeouts g)
  /\ ((tPoseResetCooldownActive g = true /\ isTPosing g = false)
      \/ (tPoseResetCooldownActive g = false
          /\ t0 + T_POSE_RESET_COOLDOWN_MS <= last
          /\ (isTPosing g = true ->
              t0 + T_POSE_RESET_COOLDOWN_MS <= tPoseStartTime g))).

(** ** Double precision

    The numbers of the script are IEEE 754 doubles.  A double is a
    [spec_float] of precision 53 and maximal exponent 1024, and the
    operations are those of the standard, rounded to nearest-even.  The
    module holds, over doubles, the code whose answer rounding can change:
    the T-pose detector and the default spawn coordinates of [resetBall]. *)
Module Double.

Definition double : Type := spec_float.
Definition prec : Z := 53%Z.
Definition emax : Z := 1024%Z.

(** An integer literal. *)
Definition ofZ (n : Z) : double := binary_normalize prec emax n 0 false.

(** The decimal literal [n/d] (both integers exactly representable): the
    double nearest to the fraction. *)
Definition literal (n d : Z) : double := SFdiv prec emax (ofZ n) (ofZ d).

Definition add : double -> double -> double := SFadd prec emax.
Definition sub : double -> double -> double := SFsub prec emax.
Definition mul : double -> double -> double := SFmul prec emax.

(** [a < b]; false when either side is NaN. *)
Definition ltb : double -> double -> bool := SFltb.

Definition Math_abs : double -> double := SFabs.

(** [Math.fround]: the nearest single-precision number (precision 24,
    maximal exponent 128), as a double. *)
Definition Math_fround (x : double) : double :=
  match x with
  | S754_finite s m e =>
      match binary_round 24 128 s m e with
      | S754_finite s' m' e' => binary_round prec emax s' m' e'
      | y => y
      end
  | _ => x
  end.

Record Landmark : Type := mkLandmark {
  lm_x : double;
  lm_y : double;
  lm_z : double;
  lm_visibility : double
}.

Definition Landmarks : Type := list (option Landmark).

Definition lookup (landmarks : Landmarks) (i : nat) : option Landmark :=
  match nth_error landmarks i with
  | Some entry => entry
  | None => None
  end.

Definition LANDMARK_VISIBILITY_THRESHOLD : double := literal 4 10.
Definition yTolerance : double := literal 3 10.
Definition xToleranceShoulder : double := literal 1 10.
Definition xToleranceElbow : double := literal 1 10.

Definition visibleEnough (lm : option Landmark) : bool :=
  match lm with
  | Some l => ltb LANDMARK_VISIBILITY_THRESHOLD (lm_visibility l)
  | None => false
  end.

Definition leftArmHorizontal (lShoulder lElbow lWrist : Landmark) : bool :=
  ltb (lm_y lElbow) (add (lm_y lShoulder) yTolerance)
  && ltb (lm_y lWrist) (add (lm_y lElbow) yTolerance).

Definition leftArmExtended (lShoulder lElbow lWrist : Landmark) : bool :=
  ltb xToleranceShoulder (Math_abs (sub (lm_x lElbow) (lm_x lShoulder)))
  && ltb xToleranceElbow (Math_abs (sub (lm_x lWrist) (lm_x lElbow))).

Definition leftArmOutward (lShoulder lElbow lWrist : Landmark) : bool :=
  ltb (lm_x lShoulder) (lm_x lElbow) && ltb (lm_x lElbow) (lm_x lWrist).

Definition rightArmHorizontal (rShoulder rElbow rWrist : Landmark) : bool :=
  ltb (lm_y rElbow) (add (lm_y rShoulder) yTolerance)
  && ltb (lm_y rWrist) (add (lm_y rElbow) yTolerance).

Definition rightArmExtended (rShoulder rElbow rWrist : Landmark) : bool :=
  ltb xToleranceShoulder (Math_abs (sub (lm_x rElbow) (lm_x rShoulder)))
  && ltb xToleranceElbow (Math_abs (sub (lm_x rWrist) (lm_x rElbow))).

Definition rightArmOutward (rShoulder rElbow rWrist : Landmark) : bool :=
  ltb (lm_x rElbow) (lm_x rShoulder) && ltb (lm_x rWrist) (lm_x rElbow).

Definition checkTPose (landmarks : option Landmarks) : bool :=
  match landmarks with
  | None => false
  | Some lms =>
      let lShoulder := lookup lms L_SHOULDER in
      let rShoulder := lookup lms R_SHOULDER in
      let lElbow := lookup lms L_ELBOW in
      let rElbow := lookup lms R_ELBOW in
      let lWrist := lookup lms L_WRIST in
      let rWrist := lookup lms R_WRIST in
      if negb (forallb visibleEnough
                 [lShoulder; rShoulder; lElbow; rElbow; lWrist; rWrist])
      then false
      else
        match lShoulder, rShoulder, lElbow, rElbow, lWrist, rWrist with
        | Some lS, Some rS, Some lE, Some rE, Some lW, Some rW =>
            leftArmHorizontal lS lE lW && leftArmExtended lS lE lW
            && leftArmOutward lS lE lW
            && rightArmHorizontal rS rE rW && rightArmExtended rS rE rW
            && rightArmOutward rS rE rW
        | _, _, _, _, _, _ => false
        end
  end.

(** [(Math.random() - 0.5) * 1.0] and [(Math.random() - 0.5) * 0.2], the
    default spawn coordinates of [resetBall], for an answer [r] of
    [Math.random]. *)
Definition startX (r : double) : double :=
  mul (sub r (literal 5 10)) (literal 10 10).

Definition startZ (r : double) : double :=
  mul (sub r (literal 5 10)) (literal 2 10).

(** Mirroring the horizontal coordinate of a landmark in the image,
    [x] to [1 - x]: the subtraction rounds. *)
Definition mirrorX (lm : Landmark) : Landmark :=
  mkLandmark (sub (ofZ 1) (lm_x lm)) (lm_y lm) (lm_z lm) (lm_visibility lm).


(** The array with the left and right shoulder, elbow and wrist entries
    exchanged and [f] applied to every entry; a short array is extended as
    [swapAndMirror] extends it. *)
Definition swapWith (f : Landmark -> Landmark) (landmarks : Landmarks)
    : Landmarks :=
  map (fun i => option_map f (lookup landmarks (swapIndex i)))
      (seq 0 (Nat.max (List.length landmarks) 17)).

Definition swapAndMirror : Landmarks -> Landmarks := swapWith mirrorX.

(** A 33-entry array from the six arm joints; every other entry is a
    landmark of visibility 0. *)
Definition pose (lS rS lE rE lW rW : Landmark) : Landmarks :=
  let other :=
    Some (mkLandmark (literal 5 10) (literal 5 10) (ofZ 0) (ofZ 0)) in
  repeat other 11 ++ map Some [lS; rS; lE; rE; lW; rW] ++ repeat other 16.



End Double.

(** * Properties *)

(** ** Comparisons *)

Lemma Qltb_lt (a b : Q) : Qltb a b = true <-> a < b.
Proof.
  unfold Qltb. rewrite negb_true_iff. split.
  - intros H. apply Qnot_le_lt. intros Hle.
    apply Qle_bool_iff in Hle. congruence.
  - intros H. destruct (Qle_bool b a) eqn:E; [|reflexivity].
    apply Qle_bool_iff in E. exfalso. apply (Qlt_not_le _ _ H E).
Qed.

Lemma Qltb_ge (a b : Q) : Qltb a b = false <-> b <= a.
Proof.
  unfold Qltb. rewrite negb_false_iff. apply Qle_bool_iff.
Qed.

Lemma Qltb_ext (a b c d : Q) : (a < b <-> c < d) -> Qltb a b = Qltb c d.
Proof.
  intros H. apply eq_true_iff_eq. rewrite !Qltb_lt. exact H.
Qed.

Lemma Qabs_mirror (a b : Q) : Qabs ((1 - a) - (1 - b)) == Qabs (a - b).
Proof.
  rewrite <- (Qabs_opp (a - b)). apply Qabs_wd. ring.
Qed.

(** ** The landmark mapper *)

(** C5.  [mapLandmarkToWorld] answers "no position" exactly for an absent
    landmark or one of visibility below 0.3; for any other landmark it
    answers the point with x = (1 - x - 0.5) * worldWidth,
    y = max(0, (1 - y) * worldHeight + yOffset) and z = 0; and the y of
    every point it answers is at least 0.  Being a function of the
    landmark alone, it reads and writes nothing else. *)
Theorem mapLandmarkToWorld_spec (landmark : option Landmark) :
  (mapLandmarkToWorld landmark = None <->
     landmark = None
     \/ exists lm, landmark = Some lm /\ lm_visibility lm < 0.3)
  /\ (forall lm, landmark = Some lm -> ~ lm_visibility lm < 0.3 ->
        exists p, mapLandmarkToWorld landmark = Some p
          /\ v_x p == (1 - lm_x lm - 0.5) * worldWidth
          /\ v_y p == Qmax 0 ((1 - lm_y lm) * worldHeight + yOffset)
          /\ v_z p == 0)
  /\ (forall p, mapLandmarkToWorld landmark = Some p -> 0 <= v_y p).
Proof.
  destruct landmark as [lm|]; cbn [mapLandmarkToWorld].
  - destruct (Qltb (lm_visibility lm) 0.3) eqn:E.
    + apply Qltb_lt in E. repeat split.
      * intros _. right. exists lm. split; [reflexivity | exact E].
      * intros lm' Hlm Hvis. injection Hlm as <-. contradiction.
      * discriminate.
    + apply Qltb_ge in E. repeat split.
      * discriminate.
      * intros [H | (lm' & Hlm & Hvis)]; [discriminate|].
        injection Hlm as <-. exfalso. apply (Qlt_not_le _ _ Hvis E).
      * intros lm' Hlm _. injection Hlm as <-.
        eexists. split; [reflexivity|]. cbn [v_x v_y v_z].
        split; [unfold xOffset; ring|].
        split; [|reflexivity].
        apply Q.max_compat; [reflexivity | ring].
      * intros p Hp. injection Hp as <-. cbn [v_y]. apply Q.le_max_l.
  - repeat split.
    + intros _. left. reflexivity.
    + discriminate.
    + discriminate.
Qed.

(** The mapper at the in-view knee of [standingLandmarks]. *)
Lemma mapLandmarkToWorld_spec_witness :
  exists p,
    mapLandmarkToWorld (lookup standingLandmarks L_KNEE) = Some p
    /\ v_x p == (1 - 0.55 - 0.5) * worldWidth
    /\ v_y p == Qmax 0 ((1 - 0.7) * worldHeight + yOffset)
    /\ v_z p == 0.
Proof.
  destruct (mapLandmarkToWorld_spec (lookup standingLandmarks L_KNEE))
    as (_ & H & _).
  apply (H (mkLandmark 0.55 0.7 0 0.9)).
  - reflexivity.
  - vm_compute. discriminate.
Defined.

(** ** The T-pose detector *)

(** C6, as the code has it.  The horizontal-arm condition of either side
    holds exactly when the elbow's normalized y is less than the shoulder's
    plus 0.3 and the wrist's less than the elbow's plus 0.3: it bounds how
    far each joint may droop below the previous one, and nothing else. *)
Theorem armHorizontal_droop_only (shoulder elbow wrist : Landmark) :
  (leftArmHorizontal shoulder elbow wrist = true <->
     lm_y elbow < lm_y shoulder + 0.3 /\ lm_y wrist < lm_y elbow + 0.3)
  /\ (rightArmHorizontal shoulder elbow wrist = true <->
        lm_y elbow < lm_y shoulder + 0.3 /\ lm_y wrist < lm_y elbow + 0.3).
Proof.
  unfold leftArmHorizontal, rightArmHorizontal, yTolerance.
  rewrite andb_true_iff, !Qltb_lt. split; reflexivity.
Qed.

(** C6, as stated, fails on [raisedArmsLandmarks]: the array passes the
    visibility gate and the detector accepts it, the left horizontal-arm
    condition holds, yet the left elbow is 0.35 above the shoulder, outside
    the band of 0.3. *)
Lemma armHorizontal_band_counterexample :
  let lS := mkLandmark 0.6 0.8 0 0.9 in
  let lE := mkLandmark 0.75 0.45 0 0.9 in
  let lW := mkLandmark 0.9 0.1 0 0.9 in
  lookup raisedArmsLandmarks L_SHOULDER = Some lS
  /\ lookup raisedArmsLandmarks L_ELBOW = Some lE
  /\ lookup raisedArmsLandmarks L_WRIST = Some lW
  /\ checkTPose (Some raisedArmsLandmarks) = true
  /\ ~ (leftArmHorizontal lS lE lW = true <-> armInBand lS lE lW).
Proof.
  cbv zeta. repeat split.
  intros [H _]. specialize (H eq_refl). destruct H as [H _].
  vm_compute in H. apply H. reflexivity.
Qed.

Lemma nth_error_map_seq {A : Type} (f : nat -> A) (n i : nat) :
  (i < n)%nat -> nth_error (map f (seq 0 n)) i = Some (f i).
Proof.
  intros Hi. rewrite nth_error_map, nth_error_seq.
  destruct (Nat.ltb_spec i n) as [_|Hge]; [reflexivity | lia].
Qed.

Lemma lookup_swapAndMirror (landmarks : Landmarks) (i : nat) :
  (i < 17)%nat ->
  lookup (swapAndMirror landmarks) i
  = option_map mirrorX (lookup landmarks (swapIndex i)).
Proof.
  intros Hi. unfold lookup at 1, swapAndMirror.
  rewrite nth_error_map_seq by lia. reflexivity.
Qed.

Lemma visibleEnough_mirrorX (lm : option Landmark) :
  visibleEnough (option_map mirrorX lm) = visibleEnough lm.
Proof. destruct lm; reflexivity. Qed.

Lemma leftArmHorizontal_mirrorX (s e w : Landmark) :
  leftArmHorizontal (mirrorX s) (mirrorX e) (mirrorX w)
  = rightArmHorizontal s e w.
Proof. reflexivity. Qed.

Lemma leftArmExtended_mirrorX (s e w : Landmark) :
  leftArmExtended (mirrorX s) (mirrorX e) (mirrorX w)
  = rightArmExtended s e w.
Proof.
  unfold leftArmExtended, rightArmExtended. cbn [mirrorX lm_x].
  f_equal; apply Qltb_ext; rewrite Qabs_mirror; reflexivity.
Qed.

Lemma rightArmExtended_mirrorX (s e w : Landmark) :
  rightArmExtended (mirrorX s) (mirrorX e) (mirrorX w)
  = leftArmExtended s e w.
Proof.
  unfold leftArmExtended, rightArmExtended. cbn [mirrorX lm_x].
  f_equal; apply Qltb_ext; rewrite Qabs_mirror; reflexivity.
Qed.

Lemma leftArmOutward_mirrorX (s e w : Landmark) :
  leftArmOutward (mirrorX s) (mirrorX e) (mirrorX w)
  = rightArmOutward s e w.
Proof.
  unfold leftArmOutward, rightArmOutward. cbn [mirrorX lm_x].
  f_equal; apply Qltb_ext; split; intros H; lra.
Qed.

Lemma rightArmOutward_mirrorX (s e w : Landmark) :
  rightArmOutward (mirrorX s) (mirrorX e) (mirrorX w)
  = leftArmOutward s e w.
Proof.
  unfold leftArmOutward, rightArmOutward. cbn [mirrorX lm_x].
  f_equal; apply Qltb_ext; split; intros H; lra.
Qed.

(** The detector on an array, by cases on its six arm entries. *)
Lemma checkTPose_entries (lms : Landmarks) :
  checkTPose (Some lms)
  = match lookup lms L_SHOULDER, lookup lms R_SHOULDER,
          lookup lms L_ELBOW, lookup lms R_ELBOW,
          lookup lms L_WRIST, lookup lms R_WRIST with
    | Some lS, Some rS, Some lE, Some rE, Some lW, Some rW =>
        (visibleEnough (Some lS) && visibleEnough (Some rS)
         && visibleEnough (Some lE) && visibleEnough (Some rE)
         && visibleEnough (Some lW) && visibleEnough (Some rW))
        && (leftArmHorizontal lS lE lW && leftArmExtended lS lE lW
            && leftArmOutward lS lE lW
            && rightArmHorizontal rS rE rW && rightArmExtended rS rE rW
            && rightArmOutward rS rE rW)
    | _, _, _, _, _, _ => false
    end.
Proof.
  unfold checkTPose.
  destruct (lookup lms L_SHOULDER) as [lS|], (lookup lms R_SHOULDER) as [rS|],
    (lookup lms L_ELBOW) as [lE|], (lookup lms R_ELBOW) as [rE|],
    (lookup lms L_WRIST) as [lW|], (lookup lms R_WRIST) as [rW|];
    cbn [forallb];
    repeat match goal with
      | |- context [visibleEnough (Some ?l)] =>
          destruct (visibleEnough (Some l))
      end;
    cbn [visibleEnough andb negb]; reflexivity.
Qed.

(** In exact arithmetic the detector answers the same on a landmark array
    and on the array with the left and right shoulder, elbow and wrist
    entries exchanged and every horizontal coordinate mirrored (x to
    1 - x).  Over doubles it does not
    ([double_checkTPose_swap_mirror_counterexample]). *)
Lemma checkTPose_swap_mirror_exact (landmarks : option Landmarks) :
  checkTPose (option_map swapAndMirror landmarks) = checkTPose landmarks.
Proof.
  destruct landmarks as [lms|]; [|reflexivity].
  cbn [option_map]. rewrite !checkTPose_entries.
  unfold L_SHOULDER, R_SHOULDER, L_ELBOW, R_ELBOW, L_WRIST, R_WRIST.
  rewrite !lookup_swapAndMirror by lia. cbn [swapIndex].
  destruct (lookup lms 11) as [lS|], (lookup lms 12) as [rS|],
    (lookup lms 13) as [lE|], (lookup lms 14) as [rE|],
    (lookup lms 15) as [lW|], (lookup lms 16) as [rW|];
    cbn [option_map]; try reflexivity.
  change (leftArmHorizontal (mirrorX rS) (mirrorX rE) (mirrorX rW))
    with (rightArmHorizontal rS rE rW).
  change (rightArmHorizontal (mirrorX lS) (mirrorX lE) (mirrorX lW))
    with (leftArmHorizontal lS lE lW).
  rewrite (leftArmExtended_mirrorX rS rE rW).
  rewrite (rightArmExtended_mirrorX lS lE lW).
  rewrite (leftArmOutward_mirrorX rS rE rW).
  rewrite (rightArmOutward_mirrorX lS lE lW).
  change (visibleEnough (Some (mirrorX lS))) with (visibleEnough (Some lS)).
  change (visibleEnough (Some (mirrorX rS))) with (visibleEnough (Some rS)).
  change (visibleEnough (Some (mirrorX lE))) with (visibleEnough (Some lE)).
  change (visibleEnough (Some (mirrorX rE))) with (visibleEnough (Some rE)).
  change (visibleEnough (Some (mirrorX lW))) with (visibleEnough (Some lW)).
  change (visibleEnough (Some (mirrorX rW))) with (visibleEnough (Some rW)).
  repeat match goal with
    | |- context [visibleEnough ?l] => destruct (visibleEnough l)
    end; cbn [andb]; try reflexivity.
  destruct (leftArmHorizontal lS lE lW), (leftArmExtended lS lE lW),
    (leftArmOutward lS lE lW), (rightArmHorizontal rS rE rW),
    (rightArmExtended rS rE rW), (rightArmOutward rS rE rW); reflexivity.
Qed.

(** *** The detector over doubles *)
















(** ** The game loop *)

(** Case analysis on the tests of a function body. *)
Ltac split_tests :=
  repeat match goal with
    | |- context [if ?c then _ else _] => destruct c eqn:?
    | |- context [match ?x with Some _ => _ | None => _ end] =>
        destruct x eqn:?
    end.

(** *** Collisions *)

Lemma collisionCallback_flag_set (now : Q) (g : Game) (ev : CollisionEvent) :
  ballJustHitPlayer g = true -> collisionCallback now g ev = g.
Proof.
  intros H. unfold collisionCallback. rewrite H.
  cbn [negb]. rewrite andb_false_r. reflexivity.
Qed.

Lemma drainCollisionEvents_flag_set (now : Q) (events : list CollisionEvent)
    (g : Game) :
  ballJustHitPlayer g = true -> drainCollisionEvents now events g = g.
Proof.
  intros H. unfold drainCollisionEvents.
  induction events as [|ev rest IH]; cbn [fold_left]; [reflexivity|].
  rewrite collisionCallback_flag_set by exact H. exact IH.
Qed.

Lemma collisionCallback_test (now : Q) (g : Game) (ev : CollisionEvent) :
  collisionCallback now g ev
  = if ballLimbStart (physicsWorld g) ev && negb (ballJustHitPlayer g)
    then flashBallColor now GREEN 150
           (onBallBody
              (applyImpulse
                 {| v_x := 0; v_y := COLLISION_BASE_IMPULSE_Y; v_z := 0 |})
              (set_ballJustHitPlayer true
                 (updateScore (set_score (score g + 1)%Z g))))
    else g.
Proof.
  unfold collisionCallback, ballLimbStart, includes.
  destruct (started ev); cbn [andb]; [|reflexivity].
  destruct (N.eqb (handle1 ev) _ && existsb _ _); cbn [orb andb];
    [reflexivity|].
  destruct (N.eqb (handle2 ev) _ && existsb _ _); reflexivity.
Qed.

Lemma collisionCallback_other (now : Q) (g : Game) (ev : CollisionEvent) :
  ballLimbStart (physicsWorld g) ev = false -> collisionCallback now g ev = g.
Proof.
  intros H. rewrite collisionCallback_test, H. reflexivity.
Qed.

Lemma drainCollisionEvents_others (now : Q) (events : list CollisionEvent)
    (g : Game) :
  forallb (fun ev => negb (ballLimbStart (physicsWorld g) ev)) events = true ->
  drainCollisionEvents now events g = g.
Proof.
  unfold drainCollisionEvents.
  induction events as [|ev rest IH]; cbn [fold_left forallb];
    [reflexivity|].
  intros H. apply andb_true_iff in H. destruct H as [Hev Hrest].
  apply negb_true_iff in Hev.
  rewrite collisionCallback_other by exact Hev. apply IH, Hrest.
Qed.

(** C2.  In a drained batch whose first start-type ball-limb event [ev]
    comes while the hit flag is clear, that event adds exactly 1 to the
    score, applies the impulse (0, 0.7, 0) to the ball and sets the flag;
    the whole batch leaves the state that event left, whatever events
    follow it, and so does any batch drained while the flag is set. *)
Theorem collision_scores_once (now : Q) (g : Game)
    (before : list CollisionEvent) (ev : CollisionEvent)
    (after : list CollisionEvent) :
  ballJustHitPlayer g = false ->
  forallb (fun e => negb (ballLimbStart (physicsWorld g) e)) before = true ->
  ballLimbStart (physicsWorld g) ev = true ->
  let hit := collisionCallback now g ev in
  score hit = (score g + 1)%Z
  /\ ballBody (physicsWorld hit)
     = applyImpulse {| v_x := 0; v_y := 0.7; v_z := 0 |}
         (ballBody (physicsWorld g))
  /\ ballJustHitPlayer hit = true
  /\ drainCollisionEvents now (before ++ ev :: after) g = hit
  /\ score (drainCollisionEvents now (before ++ ev :: after) g)
     = (score g + 1)%Z
  /\ (forall flagged batch,
        ballJustHitPlayer flagged = true ->
        drainCollisionEvents now batch flagged = flagged).
Proof.
  intros Hflag Hbefore Hev hit.
  assert (Hhit : hit
    = flashBallColor now GREEN 150
        (onBallBody
           (applyImpulse
              {| v_x := 0; v_y := COLLISION_BASE_IMPULSE_Y; v_z := 0 |})
           (set_ballJustHitPlayer true
              (updateScore (set_score (score g + 1)%Z g))))).
  { unfold hit. rewrite collisionCallback_test, Hev, Hflag. reflexivity. }
  assert (Hset : ballJustHitPlayer hit = true) by (rewrite Hhit; reflexivity).
  assert (Hdrain : drainCollisionEvents now (before ++ ev :: after) g = hit).
  { unfold drainCollisionEvents. rewrite fold_left_app. cbn [fold_left].
    fold (drainCollisionEvents now before g).
    rewrite (drainCollisionEvents_others now before g Hbefore).
    fold hit. apply (drainCollisionEvents_flag_set now after hit Hset). }
  repeat split.
  - rewrite Hhit. reflexivity.
  - rewrite Hhit. reflexivity.
  - exact Hset.
  - exact Hdrain.
  - rewrite Hdrain, Hhit. reflexivity.
  - intros flagged batch. apply drainCollisionEvents_flag_set.
Qed.

Section Loop.

Variable random : nat -> Q.

(** *** The velocity clamp *)

(** C9.  The clamp of part 4 brings a vertical velocity above
    [MAX_UPWARD_VELOCITY] = 5 down to exactly 5, on the body and in the
    local copy, and changes nothing when the vertical velocity is at most 5;
    the depth correction of part 6 then stores that vertical velocity
    unchanged.  With a vertical velocity of 7 the ball is left with exactly
    5, with 3 it keeps 3. *)
Theorem clamp_upward_velocity (g : Game) (ballPosition : Vec3) :
  let v := rb_linvel (ballBody (physicsWorld g)) in
  let clamped := clampMaximumUpwardVelocity v g in
  let stored (s : Game * Vec3) :=
    v_y (rb_linvel (ballBody (physicsWorld
           (constrainZAxisMovement (snd s) ballPosition
              (resetHitFlag (snd s) ballPosition (fst s)))))) in
  MAX_UPWARD_VELOCITY = 5
  /\ (MAX_UPWARD_VELOCITY < v_y v ->
        v_y (snd clamped) = MAX_UPWARD_VELOCITY
        /\ rb_linvel (ballBody (physicsWorld (fst clamped)))
           = {| v_x := v_x v; v_y := MAX_UPWARD_VELOCITY; v_z := v_z v |}
        /\ stored clamped = MAX_UPWARD_VELOCITY)
  /\ (v_y v <= MAX_UPWARD_VELOCITY ->
        clamped = (g, v) /\ stored clamped = v_y v)
  /\ (v_y v == 7 -> stored clamped = 5)
  /\ (v_y v == 3 -> stored clamped = v_y v).
Proof.
  intros v clamped stored.
  assert (Hhigh : MAX_UPWARD_VELOCITY < v_y v ->
            v_y (snd clamped) = MAX_UPWARD_VELOCITY
            /\ rb_linvel (ballBody (physicsWorld (fst clamped)))
               = {| v_x := v_x v; v_y := MAX_UPWARD_VELOCITY; v_z := v_z v |}
            /\ stored clamped = MAX_UPWARD_VELOCITY).
  { intros H. apply Qltb_lt in H.
    unfold stored, clamped, clampMaximumUpwardVelocity. rewrite H.
    repeat split. }
  assert (Hlow : v_y v <= MAX_UPWARD_VELOCITY ->
            clamped = (g, v) /\ stored clamped = v_y v).
  { intros H. apply Qltb_ge in H.
    unfold stored, clamped, clampMaximumUpwardVelocity. rewrite H.
    repeat split. }
  repeat split.
  - apply Hhigh; assumption.
  - apply Hhigh; assumption.
  - apply Hhigh; assumption.
  - apply Hlow; assumption.
  - apply Hlow; assumption.
  - intros H7. apply Hhigh. rewrite H7. reflexivity.
  - intros H3. apply Hlow. rewrite H3. discriminate.
Qed.

(** *** resetBall *)

Lemma resetBall_freshlyReset (spawnX spawnZ : option Q) (g : Game) :
  freshlyReset (resetBall random spawnX spawnZ g).
Proof.
  unfold freshlyReset, resetBall, Math_random.
  destruct spawnX, spawnZ; cbn; repeat split; reflexivity.
Qed.

Lemma resetBall_start (spawnX spawnZ : option Q) (g : Game) :
  let p :=
    rb_translation (ballBody (physicsWorld (resetBall random spawnX spawnZ g)))
  in
  v_x p = match spawnX with
          | Some sx => sx
          | None => (random (randomCalls g) - 0.5) * 1.0
          end
  /\ v_z p = match spawnZ with
             | Some sz => sz
             | None =>
                 (random (match spawnX with
                          | Some _ => randomCalls g
                          | None => S (randomCalls g)
                          end) - 0.5) * 0.2
             end.
Proof.
  unfold resetBall, Math_random. destruct spawnX, spawnZ; cbn; split;
    reflexivity.
Qed.

Lemma groundLevel_value : groundMesh_position_y + ballRadius == -0.25.
Proof. reflexivity. Qed.

(** The three branches of part 7. *)
Lemma gameLogic_cases (now : Q) (ballPosition : Vec3) (g : Game) :
  gameLogic random now ballPosition g
  = if Qltb (v_y ballPosition) (-0.25) && negb (tPoseResetCooldownActive g)
    then flashBallColor now RED 250
           (set_ballJustHitPlayer false
              (updateScore (set_score 0%Z (resetBall random None None g))))
    else if outOfBounds ballPosition
    then flashBallColor now YELLOW 250
           (set_ballJustHitPlayer false (resetBall random None None g))
    else g.
Proof.
  unfold gameLogic, outOfBounds.
  replace (Qltb (v_y ballPosition) (groundMesh_position_y + ballRadius))
    with (Qltb (v_y ballPosition) (-0.25)); [reflexivity|].
  apply Qltb_ext. rewrite groundLevel_value. reflexivity.
Qed.

Lemma triggerReset_freshlyReset (now : Q) (landmarks : Landmarks) (g : Game) :
  freshlyReset (triggerReset random now landmarks g).
Proof.
  unfold triggerReset.
  match goal with
  | |- context [resetBall random ?sx ?sz ?g0] =>
      pose proof (resetBall_freshlyReset sx sz g0) as H
  end.
  exact H.
Qed.

(** A rounding that keeps the order keeps equal numbers equal. *)
Lemma monotone_Qeq (stored : Q -> Q) (a b : Q) :
  (forall c d, c <= d -> stored c <= stored d) ->
  a == b -> stored a == stored b.
Proof.
  intros Hmono Hab. apply Qle_antisym; apply Hmono; rewrite Hab;
    apply Qle_refl.
Qed.

(** C10, as the code has it.  [resetBall] leaves the ball at height 4.0 with
    linear velocity exactly (0, -0.5, 0) and zero angular velocity, and the
    hit flag clear, and that is the state at the end of the gesture reset of
    part 0 and of the drop and out-of-bounds resets of part 7.  A spawn
    coordinate that is not supplied is drawn from [Math.random], whose
    answers lie in [0, 1): the x that [resetBall] hands to the engine then
    lies in [-0.5, 0.5) and the z in [-0.1, 0.1).  The engine stores what
    it is handed in single precision, a rounding [stored] that keeps the
    order of numbers and keeps -0.5, 0.5 and 4: the position it answers
    has height 4.0 still, x in the closed range [-0.5, 0.5], and z between
    the stored values of -0.1 and of 0.1, ends included. *)
Theorem reset_leaves_fresh_ball (stored : Q -> Q) (now : Q) (g : Game)
    (spawnX spawnZ : option Q) (landmarks : Landmarks) (ballPosition : Vec3) :
  (forall n, 0 <= random n /\ random n < 1) ->
  (forall a b, a <= b -> stored a <= stored b) ->
  stored (-0.5) == -0.5 ->
  stored 0.5 == 0.5 ->
  stored 4.0 == 4.0 ->
  let reset := resetBall random spawnX spawnZ g in
  let written := rb_translation (ballBody (physicsWorld reset)) in
  let p := storedTranslation stored (ballBody (physicsWorld reset)) in
  freshlyReset reset
  /\ freshlyReset (triggerReset random now landmarks g)
  /\ (Qltb (v_y ballPosition) (-0.25) && negb (tPoseResetCooldownActive g)
      || outOfBounds ballPosition = true ->
      freshlyReset (gameLogic random now ballPosition g))
  /\ v_y p == 4.0
  /\ (spawnX = None ->
        (-0.5 <= v_x written /\ v_x written < 0.5)
        /\ -0.5 <= v_x p /\ v_x p <= 0.5)
  /\ (spawnZ = None ->
        (-0.1 <= v_z written /\ v_z written < 0.1)
        /\ stored (-0.1) <= v_z p /\ v_z p <= stored 0.1).
Proof.
  intros Hrandom Hmono Hlow Hhigh Hfour reset written p.
  assert (Hx : spawnX = None -> -0.5 <= v_x written /\ v_x written < 0.5).
  { intros ->. unfold written, reset.
    destruct (resetBall_start None spawnZ g) as [-> _].
    destruct (Hrandom (randomCalls g)). split; lra. }
  assert (Hz : spawnZ = None -> -0.1 <= v_z written /\ v_z written < 0.1).
  { intros ->. unfold written, reset.
    destruct (resetBall_start spawnX None g) as [_ ->].
    match goal with
    | |- context [random ?n] => destruct (Hrandom n)
    end.
    split; lra. }
  split; [apply resetBall_freshlyReset|].
  split; [apply triggerReset_freshlyReset|].
  split; [|split; [|split]].
  - intros Hfire. rewrite gameLogic_cases.
    destruct (Qltb (v_y ballPosition) (-0.25)
              && negb (tPoseResetCooldownActive g)).
    + pose proof (resetBall_freshlyReset None None g) as (H1 & H2 & H3 & _).
      repeat split; assumption.
    + cbn [orb] in Hfire. rewrite Hfire.
      pose proof (resetBall_freshlyReset None None g) as (H1 & H2 & H3 & _).
      repeat split; assumption.
  - destruct (resetBall_freshlyReset spawnX spawnZ g) as (Hy & _).
    unfold p, storedTranslation. cbn [v_y].
    rewrite <- Hfour. apply (monotone_Qeq stored _ _ Hmono). exact Hy.
  - intros Hnone. destruct (Hx Hnone) as [H1 H2].
    split; [split; assumption|].
    unfold p, storedTranslation. cbn [v_x]. fold reset. fold written.
    split.
    + rewrite <- Hlow. apply Hmono, H1.
    + rewrite <- Hhigh. apply Hmono, Qlt_le_weak, H2.
  - intros Hnone. destruct (Hz Hnone) as [H1 H2].
    split; [split; assumption|].
    unfold p, storedTranslation. cbn [v_z]. fold reset. fold written.
    split.
    + apply Hmono, H1.
    + apply Hmono, Qlt_le_weak, H2.
Qed.

(** C10, as stated, fails when [Math.random] answers 0.99999999.  The
    coordinates that [resetBall] computes are inside the half-open ranges,
    x below 0.5 and z below 0.1.  Stored in single precision they are not:
    the position answers x = 0.5, and for z the single-precision number
    nearest to 0.1, which is above 0.1. *)
Lemma reset_spawn_range_counterexample :
  let r := Double.literal 99999999 100000000 in
  let x := Double.Math_fround (Double.startX r) in
  let z := Double.Math_fround (Double.startZ r) in
  SFleb (Double.ofZ 0) r = true
  /\ Double.ltb r (Double.ofZ 1) = true
  /\ Double.ltb (Double.startX r) (Double.literal 5 10) = true
  /\ Double.ltb (Double.startZ r) (Double.literal 1 10) = true
  /\ x = Double.literal 5 10
  /\ Double.ltb x (Double.literal 5 10) = false
  /\ z = Double.Math_fround (Double.literal 1 10)
  /\ Double.ltb (Double.literal 1 10) z = true
  /\ Double.ltb z (Double.literal 1 10) = false.
Proof. cbv zeta. repeat split; vm_compute; reflexivity. Qed.

(** *** What each part of a frame leaves alone *)

Lemma sameGesture_refl (g : Game) : sameGesture g g.
Proof. repeat split. Qed.

Lemma sameGesture_trans (g1 g2 g3 : Game) :
  sameGesture g1 g2 -> sameGesture g2 g3 -> sameGesture g1 g3.
Proof.
  unfold sameGesture.
  intros (A1 & A2 & A3 & A4 & A5 & A6) (B1 & B2 & B3 & B4 & B5 & B6).
  repeat split; congruence.
Qed.

Lemma updatePlayer_sameGesture (g : Game) : sameGesture g (updatePlayer g).
Proof.
  unfold updatePlayer, sameGesture, currentLandmarks.
  destruct (lastPoseResults g) as [[[lms|]]|] eqn:E; cbn; rewrite ?E;
    repeat split.
Qed.

Lemma updatePlayer_score (g : Game) : score (updatePlayer g) = score g.
Proof.
  unfold updatePlayer. destruct (currentLandmarks g); reflexivity.
Qed.

Lemma collisionCallback_sameGesture (now : Q) (g : Game)
    (ev : CollisionEvent) :
  sameGesture g (collisionCallback now g ev).
Proof.
  rewrite collisionCallback_test.
  destruct (ballLimbStart _ _ && negb _); repeat split.
Qed.

Lemma collisionCallback_score (now : Q) (g : Game) (ev : CollisionEvent) :
  (score g <= score (collisionCallback now g ev))%Z.
Proof.
  rewrite collisionCallback_test.
  destruct (ballLimbStart _ _ && negb _); cbn; lia.
Qed.

Lemma drainCollisionEvents_sameGesture (now : Q)
    (events : list CollisionEvent) (g : Game) :
  sameGesture g (drainCollisionEvents now events g).
Proof.
  unfold drainCollisionEvents. revert g.
  induction events as [|ev rest IH]; intros g; cbn [fold_left].
  - apply sameGesture_refl.
  - eapply sameGesture_trans; [apply collisionCallback_sameGesture|apply IH].
Qed.

Lemma drainCollisionEvents_score (now : Q) (events : list CollisionEvent)
    (g : Game) :
  (score g <= score (drainCollisionEvents now events g))%Z.
Proof.
  unfold drainCollisionEvents. revert g.
  induction events as [|ev rest IH]; intros g; cbn [fold_left]; [lia|].
  pose proof (collisionCallback_score now g ev).
  pose proof (IH (collisionCallback now g ev)). lia.
Qed.

Lemma stepPhysics_sameGesture (world_step : EngineStep) (now : Q)
    (g : Game) :
  sameGesture g (stepPhysics world_step now g).
Proof.
  unfold stepPhysics. destruct (world_step (physicsWorld g)) as [w events].
  eapply sameGesture_trans; [|apply drainCollisionEvents_sameGesture].
  repeat split.
Qed.

Lemma stepPhysics_score (world_step : EngineStep) (now : Q) (g : Game) :
  (score g <= score (stepPhysics world_step now g))%Z.
Proof.
  unfold stepPhysics. destruct (world_step (physicsWorld g)) as [w events].
  apply (drainCollisionEvents_score now events (set_physicsWorld w g)).
Qed.

Lemma resetBall_sameGesture (spawnX spawnZ : option Q) (g : Game) :
  sameGesture g (resetBall random spawnX spawnZ g).
Proof.
  unfold resetBall, Math_random. destruct spawnX, spawnZ; repeat split.
Qed.

Lemma resetBall_score (spawnX spawnZ : option Q) (g : Game) :
  score (resetBall random spawnX spawnZ g) = score g.
Proof.
  unfold resetBall, Math_random. destruct spawnX, spawnZ; reflexivity.
Qed.

Lemma gameLogic_sameGesture (now : Q) (ballPosition : Vec3) (g : Game) :
  sameGesture g (gameLogic random now ballPosition g).
Proof.
  rewrite gameLogic_cases.
  pose proof (resetBall_sameGesture None None g) as H.
  destruct (Qltb _ _ && negb _); [exact H|].
  destruct (outOfBounds ballPosition); [exact H | apply sameGesture_refl].
Qed.

Lemma postPhysics_gameLogic (now : Q) (g : Game) :
  postPhysics random now g
  = gameLogic random now (rb_translation (ballBody (physicsWorld g)))
      (beforeGameLogic g).
Proof.
  unfold postPhysics, beforeGameLogic.
  destruct (clampMaximumUpwardVelocity _ _). reflexivity.
Qed.

Lemma beforeGameLogic_sameGesture (g : Game) :
  sameGesture g (beforeGameLogic g).
Proof.
  unfold beforeGameLogic, clampMaximumUpwardVelocity, resetHitFlag.
  cbn [set_ballMesh physicsWorld ballBody].
  destruct (Qltb MAX_UPWARD_VELOCITY _); cbn [fst snd];
    destruct (Qltb _ (-0.1) || Qltb _ 0.5); repeat split.
Qed.

Lemma beforeGameLogic_score (g : Game) : score (beforeGameLogic g) = score g.
Proof.
  unfold beforeGameLogic, clampMaximumUpwardVelocity, resetHitFlag.
  cbn [set_ballMesh physicsWorld ballBody].
  destruct (Qltb MAX_UPWARD_VELOCITY _); cbn [fst snd];
    destruct (Qltb _ (-0.1) || Qltb _ 0.5); reflexivity.
Qed.

Lemma postPhysics_sameGesture (now : Q) (g : Game) :
  sameGesture g (postPhysics random now g).
Proof.
  rewrite postPhysics_gameLogic.
  eapply sameGesture_trans;
    [apply beforeGameLogic_sameGesture | apply gameLogic_sameGesture].
Qed.

(** *** The score *)

Lemma gameLogic_score (now : Q) (ballPosition : Vec3) (g : Game) :
  score (gameLogic random now ballPosition g)
  = if Qltb (v_y ballPosition) (-0.25) && negb (tPoseResetCooldownActive g)
    then 0%Z else score g.
Proof.
  rewrite gameLogic_cases.
  destruct (Qltb _ _ && negb _); [reflexivity|].
  destruct (outOfBounds ballPosition); [|reflexivity].
  apply (resetBall_score None None g).
Qed.

Lemma postPhysics_score (now : Q) (g : Game) :
  score (postPhysics random now g) = score g
  \/ (score (postPhysics random now g) = 0%Z
      /\ tPoseResetCooldownActive g = false).
Proof.
  rewrite postPhysics_gameLogic, gameLogic_score, beforeGameLogic_score.
  destruct (beforeGameLogic_sameGesture g) as (_ & _ & _ & -> & _).
  destruct (Qltb _ _); cbn [andb]; [|left; reflexivity].
  destruct (tPoseResetCooldownActive g); cbn [negb]; [left|right]; auto.
Qed.

Lemma triggerReset_score (now : Q) (landmarks : Landmarks) (g : Game) :
  score (triggerReset random now landmarks g) = 0%Z.
Proof. reflexivity. Qed.

Lemma checkForTPoseReset_score (now : Q) (g : Game) :
  score (checkForTPoseReset random now g) = score g
  \/ (score (checkForTPoseReset random now g) = 0%Z
      /\ tPoseResetCooldownActive g = false).
Proof.
  unfold checkForTPoseReset.
  destruct (currentLandmarks g) as [lms|];
    destruct (tPoseResetCooldownActive g);
    split_tests; auto.
Qed.

Lemma animate_score (world_step : EngineStep) (now : Q) (g : Game) :
  (0 <= score g -> 0 <= score (animate world_step random now g))%Z
  /\ (tPoseResetCooldownActive g = true ->
      tPoseResetCooldownActive (checkForTPoseReset random now g) = true ->
      score g <= score (animate world_step random now g))%Z.
Proof.
  unfold animate.
  set (g1 := checkForTPoseReset random now g).
  set (g2 := updatePlayer g1).
  set (g3 := stepPhysics world_step now g2).
  pose proof (checkForTPoseReset_score now g) as H1. fold g1 in H1.
  pose proof (updatePlayer_score g1) as H2. fold g2 in H2.
  pose proof (stepPhysics_score world_step now g2) as H3. fold g3 in H3.
  pose proof (postPhysics_score now g3) as H4.
  pose proof (updatePlayer_sameGesture g1) as (_ & _ & _ & C2 & _).
  fold g2 in C2.
  pose proof (stepPhysics_sameGesture world_step now g2)
    as (_ & _ & _ & C3 & _).
  fold g3 in C3.
  split.
  - intros Hpos. destruct H1 as [H1|[H1 _]], H4 as [H4|[H4 _]]; lia.
  - intros Hcool Hcool1.
    destruct H1 as [H1|[_ H1]]; [|congruence].
    destruct H4 as [H4|[_ H4]]; [lia|congruence].
Qed.

Lemma dispatch_score (g : Game) (event : Q * Callback) :
  (0 <= score g -> 0 <= score (dispatch random g event))%Z.
Proof.
  destruct event as [now [results|world_step|i|]]; cbn [dispatch].
  - auto.
  - apply animate_score.
  - destruct (nth_error (cooldownTimeouts g) i) as [due|]; [|auto].
    destruct (Qle_bool due now); auto.
  - destruct (flashTimeout g) as [due|]; [|auto].
    destruct (Qle_bool due now); auto.
Qed.

Lemma run_score (events : list (Q * Callback)) (g : Game) :
  (0 <= score g -> 0 <= score (run random g events))%Z.
Proof.
  unfold run. revert g.
  induction events as [|event rest IH]; intros g Hg; cbn [fold_left].
  - exact Hg.
  - apply IH, dispatch_score, Hg.
Qed.

(** C8.  Part 7 of a frame, on ball position [ballPosition].  Below
    ground level plus ball radius (-0.25) with no cooldown active, the drop
    reset respawns the ball at the default location (height 4.0, x and z
    drawn at random), sets the score and the score text to 0, and flashes
    the ball red.  Otherwise, above height 8 or beyond |x| = 5 or |z| = 2,
    the out-of-bounds reset respawns the ball the same way, keeps the score
    and flashes the ball yellow.  Otherwise nothing changes.  The score,
    0 at the start, is never negative, whatever the browser runs. *)
Theorem bounds_check (now : Q) (ballPosition : Vec3) (g : Game)
    (invMass : Q) (events : list (Q * Callback)) :
  let g' := gameLogic random now ballPosition g in
  let respawned := ballBody (physicsWorld (resetBall random None None g)) in
  groundMesh_position_y + ballRadius == -0.25
  /\ v_y (rb_translation respawned) == 4.0
  /\ v_x (rb_translation respawned) = (random (randomCalls g) - 0.5) * 1.0
  /\ v_z (rb_translation respawned)
     = (random (S (randomCalls g)) - 0.5) * 0.2
  /\ (v_y ballPosition < -0.25 /\ tPoseResetCooldownActive g = false ->
      score g' = 0%Z /\ scoreElement g' = 0%Z
      /\ ballBody (physicsWorld g') = respawned
      /\ bm_color (ballMesh g') = RED
      /\ flashTimeout g' = Some (now + 250))
  /\ (~ (v_y ballPosition < -0.25 /\ tPoseResetCooldownActive g = false) ->
      8 < v_y ballPosition \/ 5 < Qabs (v_x ballPosition)
      \/ 2 < Qabs (v_z ballPosition) ->
      score g' = score g /\ scoreElement g' = scoreElement g
      /\ ballBody (physicsWorld g') = respawned
      /\ bm_color (ballMesh g') = YELLOW
      /\ flashTimeout g' = Some (now + 250))
  /\ (~ (v_y ballPosition < -0.25 /\ tPoseResetCooldownActive g = false) ->
      ~ (8 < v_y ballPosition \/ 5 < Qabs (v_x ballPosition)
         \/ 2 < Qabs (v_z ballPosition)) ->
      g' = g)
  /\ (0 <= score g -> 0 <= score g')%Z
  /\ (0 <= score (run random (initialGame invMass) events))%Z.
Proof.
  intros g' respawned.
  assert (Hdrop : Qltb (v_y ballPosition) (-0.25)
                  && negb (tPoseResetCooldownActive g) = true
                  <-> v_y ballPosition < -0.25
                      /\ tPoseResetCooldownActive g = false).
  { rewrite andb_true_iff, negb_true_iff, Qltb_lt. reflexivity. }
  assert (Hout : outOfBounds ballPosition = true
                 <-> 8 < v_y ballPosition \/ 5 < Qabs (v_x ballPosition)
                     \/ 2 < Qabs (v_z ballPosition)).
  { unfold outOfBounds. rewrite !orb_true_iff, !Qltb_lt. tauto. }
  split; [apply groundLevel_value|].
  split; [apply (resetBall_freshlyReset None None g)|].
  split; [apply (resetBall_start None None g)|].
  split; [apply (resetBall_start None None g)|].
  unfold g'. rewrite gameLogic_score, gameLogic_cases.
  split; [|split; [|split; [|split]]].
  - intros Hd. apply Hdrop in Hd. rewrite Hd. repeat split.
  - intros Hnd Ho. apply Hout in Ho.
    destruct (Qltb _ _ && negb _); [exfalso; apply Hnd, Hdrop; reflexivity|].
    rewrite Ho. repeat split.
  - intros Hnd Hno.
    destruct (Qltb _ _ && negb _); [exfalso; apply Hnd, Hdrop; reflexivity|].
    destruct (outOfBounds ballPosition); [|reflexivity].
    exfalso. apply Hno, Hout. reflexivity.
  - destruct (Qltb _ _ && negb _); lia.
  - apply run_score. cbn. lia.
Qed.

(** *** The hold tracking *)

Lemma animate_sameGesture (world_step : EngineStep) (now : Q) (g : Game) :
  sameGesture (checkForTPoseReset random now g)
    (animate world_step random now g).
Proof.
  unfold animate.
  eapply sameGesture_trans; [apply updatePlayer_sameGesture|].
  eapply sameGesture_trans; [apply stepPhysics_sameGesture|].
  apply postPhysics_sameGesture.
Qed.

Lemma sameGesture_currentLandmarks (g g' : Game) :
  sameGesture g g' -> currentLandmarks g' = currentLandmarks g.
Proof.
  intros (H & _). unfold currentLandmarks. rewrite H. reflexivity.
Qed.

Lemma sameGesture_gestureResets (g g' : Game) :
  sameGesture g g' -> gestureResets g' = gestureResets g.
Proof.
  intros (_ & _ & _ & _ & _ & H). unfold gestureResets. rewrite H.
  reflexivity.
Qed.

Lemma triggerReset_gesture (now : Q) (landmarks : Landmarks) (g : Game) :
  let g' := triggerReset random now landmarks g in
  console g' = tPoseResetMessage :: console g
  /\ tPoseResetCooldownActive g' = true
  /\ isTPosing g' = false
  /\ cooldownTimeouts g'
     = cooldownTimeouts g ++ [now + T_POSE_RESET_COOLDOWN_MS]
  /\ lastPoseResults g' = lastPoseResults g.
Proof.
  unfold triggerReset.
  match goal with
  | |- context [resetBall random ?sx ?sz ?g0] =>
      pose proof (resetBall_sameGesture sx sz g0) as (R1 & _ & _ & _ & R5 & R6);
      generalize dependent (resetBall random sx sz g0)
  end.
  intros r R1 R5 R6. cbn in *. rewrite R1, R5, R6. repeat split.
Qed.

Lemma triggerReset_gestureResets (now : Q) (landmarks : Landmarks)
    (g : Game) :
  gestureResets (triggerReset random now landmarks g) = S (gestureResets g).
Proof.
  unfold gestureResets.
  destruct (triggerReset_gesture now landmarks g) as (-> & _).
  apply count_occ_cons_eq. reflexivity.
Qed.

(** Part 0 in [Idle], on a snapshot showing a T-pose. *)
Lemma checkForTPoseReset_start (now : Q) (g : Game) :
  checkTPose (currentLandmarks g) = true ->
  isTPosing g = false ->
  tPoseResetCooldownActive g = false ->
  checkForTPoseReset random now g
  = set_tposeIndicatorElement true
      (set_tPoseStartTime now (set_isTPosing true g)).
Proof.
  intros HT Hidle Hcool. unfold checkForTPoseReset.
  destruct (currentLandmarks g) as [lms|]; [|discriminate].
  rewrite Hcool, HT, Hidle. reflexivity.
Qed.

(** Part 0 in [Holding]. *)
Lemma checkForTPoseReset_holding (now t0 : Q) (c : nat) (g : Game) :
  holding t0 c g ->
  exists lms,
    currentLandmarks g = Some lms
    /\ checkForTPoseReset random now g
       = if Qle_bool T_POSE_DURATION_THRESHOLD_MS (now - t0)
         then triggerReset random now lms g
         else g.
Proof.
  intros (HT & Hhold & Hstart & Hcool & _). unfold checkForTPoseReset.
  destruct (currentLandmarks g) as [lms|]; [|discriminate].
  exists lms. split; [reflexivity|].
  rewrite Hcool, HT, Hhold, Hstart. reflexivity.
Qed.

(** Part 0 while the cooldown is active. *)
Lemma checkForTPoseReset_cooldown (now : Q) (g : Game) :
  tPoseResetCooldownActive g = true ->
  let g' := checkForTPoseReset random now g in
  tPoseResetCooldownActive g' = true
  /\ cooldownTimeouts g' = cooldownTimeouts g
  /\ console g' = console g
  /\ score g' = score g.
Proof.
  intros Hcool. unfold checkForTPoseReset. rewrite Hcool.
  destruct (currentLandmarks g), (isTPosing g); cbn; rewrite ?Hcool;
    repeat split.
Qed.

(** Part 0 either logs nothing and leaves the cooldown state alone, or
    starts from a clear cooldown flag and is a gesture reset. *)
Lemma checkForTPoseReset_cases (now : Q) (g : Game) :
  let g' := checkForTPoseReset random now g in
  (console g' = console g
   /\ tPoseResetCooldownActive g' = tPoseResetCooldownActive g
   /\ cooldownTimeouts g' = cooldownTimeouts g)
  \/ (tPoseResetCooldownActive g = false
      /\ exists lms, g' = triggerReset random now lms g).
Proof.
  unfold checkForTPoseReset.
  destruct (currentLandmarks g) as [lms|];
    destruct (tPoseResetCooldownActive g) eqn:Hcool;
    try (left; destruct (isTPosing g); cbn; rewrite ?Hcool; repeat split;
         fail).
  destruct (checkTPose (Some lms)); cbn zeta.
  - destruct (isTPosing g); cbn [negb].
    + destruct (Qle_bool _ _).
      * right. split; [reflexivity|]. exists lms. reflexivity.
      * left. rewrite Hcool. repeat split.
    + left. cbn. rewrite Hcool. repeat split.
  - left. destruct (isTPosing g); cbn; rewrite ?Hcool; repeat split.
Qed.

Lemma cooldownTimeoutCallback_gestureResets (g : Game) :
  gestureResets (cooldownTimeoutCallback g) = gestureResets g.
Proof.
  unfold gestureResets, cooldownTimeoutCallback, console_log.
  cbn [console set_console set_tPoseResetCooldownActive].
  apply count_occ_cons_neq. discriminate.
Qed.

(** [Holding] survives a pose result that shows a T-pose, a timer callback,
    and a frame that comes less than 700 ms after the hold began. *)
Lemma dispatch_holding (t0 : Q) (c : nat) (g : Game) (now : Q)
    (callback : Callback) :
  holding t0 c g ->
  match callback with
  | PoseResult results => checkTPose (poseLandmarks results) = true
  | AnimationFrame _ => now - t0 < T_POSE_DURATION_THRESHOLD_MS
  | _ => True
  end ->
  holding t0 c (dispatch random g (now, callback)).
Proof.
  intros Hhold Hev. pose proof Hhold as (HT & Hh & Hs & Hc & Hn).
  destruct callback as [results|world_step|i|]; cbn [dispatch].
  - repeat split; assumption.
  - destruct (checkForTPoseReset_holding now t0 c g Hhold) as (lms & _ & Hcf).
    apply Qltb_lt in Hev. unfold Qltb in Hev.
    apply negb_true_iff in Hev. rewrite Hev in Hcf.
    pose proof (animate_sameGesture world_step now g) as Hsame.
    rewrite Hcf in Hsame.
    pose proof (sameGesture_currentLandmarks _ _ Hsame) as HL.
    pose proof (sameGesture_gestureResets _ _ Hsame) as HR.
    destruct Hsame as (_ & S2 & S3 & S4 & _).
    unfold holding. rewrite HL, S2, S3, S4, HR. repeat split; assumption.
  - destruct (nth_error (cooldownTimeouts g) i) as [due|]; [|exact Hhold].
    destruct (Qle_bool due now); [|exact Hhold].
    unfold holding. rewrite cooldownTimeoutCallback_gestureResets.
    repeat split; assumption.
  - destruct (flashTimeout g) as [due|]; [|exact Hhold].
    destruct (Qle_bool due now); [|exact Hhold].
    repeat split; assumption.
Qed.

Lemma run_holding (t0 : Q) (c : nat) (events : list (Q * Callback))
    (g : Game) :
  holding t0 c g ->
  allTPose events ->
  (forall t world_step,
      In (t, AnimationFrame world_step) events ->
      t - t0 < T_POSE_DURATION_THRESHOLD_MS) ->
  holding t0 c (run random g events).
Proof.
  unfold run. revert g.
  induction events as [|[now callback] rest IH]; intros g Hhold HT Hframes;
    cbn [fold_left]; [exact Hhold|].
  unfold allTPose in HT. cbn [forallb snd] in HT.
  apply andb_true_iff in HT. destruct HT as [Hhead Hrest].
  apply IH.
  - apply dispatch_holding; [exact Hhold|].
    destruct callback as [results|world_step|i|]; try exact I.
    + exact Hhead.
    + apply (Hframes now world_step). left. reflexivity.
  - exact Hrest.
  - intros t world_step Hin. apply (Hframes t world_step). right. exact Hin.
Qed.

(** With increasing frame times, every frame before the last comes strictly
    between the previous frame and the last one. *)
Lemma increasingFrames_between (prev tn : Q) (last : EngineStep)
    (events : list (Q * Callback)) :
  increasingFrames prev (events ++ [(tn, AnimationFrame last)]) ->
  prev < tn
  /\ forall t world_step,
       In (t, AnimationFrame world_step) events -> prev < t /\ t < tn.
Proof.
  revert prev.
  induction events as [|[now callback] rest IH]; intros prev Hinc.
  - cbn in Hinc. split; [tauto|]. intros t world_step [].
  - assert (Hskip :
      increasingFrames prev (rest ++ [(tn, AnimationFrame last)]) ->
      prev < tn
      /\ forall t world_step,
           In (t, AnimationFrame world_step) ((now, callback) :: rest) ->
           (forall step, callback <> AnimationFrame step) ->
           prev < t /\ t < tn).
    { intros H. destruct (IH prev H) as [Hlt Hall]. split; [exact Hlt|].
      intros t world_step [Heq|Hin] Hneq; [|apply (Hall t world_step), Hin].
      injection Heq as _ Hcb. exfalso. apply (Hneq world_step), Hcb. }
    destruct callback as [results|step|i|]; cbn in Hinc.
    + destruct (Hskip Hinc) as [Hlt Hall]. split; [exact Hlt|].
      intros t world_step Hin.
      apply (Hall t world_step); [exact Hin | discriminate].
    + destruct Hinc as [Hnow Hrest].
      destruct (IH now Hrest) as [Hlt Hall].
      split; [apply (Qlt_trans _ _ _ Hnow Hlt)|].
      intros t world_step [Heq|Hin].
      * injection Heq as <- _. split; assumption.
      * destruct (Hall t world_step Hin) as [H1 H2].
        split; [apply (Qlt_trans _ _ _ Hnow H1) | exact H2].
    + destruct (Hskip Hinc) as [Hlt Hall]. split; [exact Hlt|].
      intros t world_step Hin.
      apply (Hall t world_step); [exact Hin | discriminate].
    + destruct (Hskip Hinc) as [Hlt Hall]. split; [exact Hlt|].
      intros t world_step Hin.
      apply (Hall t world_step); [exact Hin | discriminate].
Qed.

(** The frame that starts a hold. *)
Lemma animate_starts_hold (world_step : EngineStep) (t0 : Q) (g : Game) :
  checkTPose (currentLandmarks g) = true ->
  isTPosing g = false ->
  tPoseResetCooldownActive g = false ->
  holding t0 (gestureResets g) (animate world_step random t0 g).
Proof.
  intros HT Hidle Hcool.
  pose proof (animate_sameGesture world_step t0 g) as Hsame.
  rewrite (checkForTPoseReset_start t0 g HT Hidle Hcool) in Hsame.
  pose proof (sameGesture_currentLandmarks _ _ Hsame) as HL.
  pose proof (sameGesture_gestureResets _ _ Hsame) as HR.
  destruct Hsame as (_ & S2 & S3 & S4 & _).
  unfold holding. rewrite HL, S2, S3, S4, HR. repeat split; assumption.
Qed.

(** The frame that ends a run of detections begun at [t0]. *)
Lemma animate_ends_hold (world_step : EngineStep) (t0 tn : Q) (c : nat)
    (g : Game) :
  holding t0 c g ->
  gestureResets (animate world_step random tn g)
  = if Qle_bool T_POSE_DURATION_THRESHOLD_MS (tn - t0) then S c else c.
Proof.
  intros Hhold. pose proof Hhold as (_ & _ & _ & _ & Hn).
  destruct (checkForTPoseReset_holding tn t0 c g Hhold) as (lms & _ & Hcf).
  rewrite (sameGesture_gestureResets _ _
             (animate_sameGesture world_step tn g)), Hcf.
  destruct (Qle_bool _ _); [|exact Hn].
  rewrite triggerReset_gestureResets, Hn. reflexivity.
Qed.

Lemma triggerReset_effects (now : Q) (landmarks : Landmarks) (g : Game) :
  let g' := triggerReset random now landmarks g in
  score g' = 0%Z
  /\ scoreElement g' = 0%Z
  /\ tposeIndicatorElement g' = false
  /\ bm_color (ballMesh g') = CYAN
  /\ flashTimeout g' = Some (now + 300).
Proof.
  unfold triggerReset.
  match goal with
  | |- context [resetBall random ?sx ?sz ?g0] =>
      generalize (resetBall random sx sz g0)
  end.
  intros r. cbn. repeat split.
Qed.

Lemma allTPose_firstn (k : nat) (events : list (Q * Callback)) :
  allTPose events -> allTPose (firstn k events).
Proof.
  unfold allTPose. intros H.
  rewrite <- (firstn_skipn k events), forallb_app in H.
  apply andb_true_iff in H. apply H.
Qed.

Lemma In_firstn (k : nat) (events : list (Q * Callback))
    (event : Q * Callback) :
  In event (firstn k events) -> In event events.
Proof.
  intros H. rewrite <- (firstn_skipn k events). apply in_or_app. left.
  exact H.
Qed.

(** C3.  From [Idle] with no cooldown active, on a snapshot showing a
    T-pose: a frame at [t0], then frames at increasing times up to a last
    frame at [tn], with every pose result arriving in between still showing
    a T-pose (timer callbacks may run at any point).  The last frame is
    part 0 on the state [held] that the earlier events leave, followed by
    the limb update, the physics step and the post-physics parts.  While
    [tn - t0] is at most 700 no earlier event resets: after each of them
    the hold begun at [t0] is still tracked, the cooldown is clear and no
    gesture reset has been logged.  When [tn - t0] is exactly 700, part 0
    of the last frame is the gesture reset, once: the ball is respawned
    (height 4.0, velocity (0, -0.5, 0), no spin, hit flag clear), the score
    and the score text are 0, the hold is over and its indicator hidden,
    the cooldown is on with one more timer, due at [tn + 2000], the ball
    flashes cyan for 300 ms and one reset line is logged; the run ends with
    that one reset logged, no hold tracked and the cooldown on.  When
    [tn - t0] is 699, part 0 of the last frame changes nothing, and the run
    ends with the hold still tracked and no gesture reset logged. *)
Theorem hold_of_700ms_resets_once (g : Game) (t0 tn : Q)
    (first last : EngineStep) (between : list (Q * Callback)) :
  checkTPose (currentLandmarks g) = true ->
  isTPosing g = false ->
  tPoseResetCooldownActive g = false ->
  allTPose between ->
  increasingFrames t0 (between ++ [(tn, AnimationFrame last)]) ->
  let before (k : nat) :=
    run random g ((t0, AnimationFrame first) :: firstn k between) in
  let held := run random g ((t0, AnimationFrame first) :: between) in
  let reset := checkForTPoseReset random tn held in
  let final :=
    run random g
      ((t0, AnimationFrame first)
       :: between ++ [(tn, AnimationFrame last)]) in
  final = postPhysics random tn (stepPhysics last tn (updatePlayer reset))
  /\ (tn - t0 <= 700 -> forall k, holding t0 (gestureResets g) (before k))
  /\ (tn - t0 == 700 ->
        (exists landmarks,
            currentLandmarks held = Some landmarks
            /\ reset = triggerReset random tn landmarks held)
        /\ freshlyReset reset
        /\ score reset = 0%Z
        /\ scoreElement reset = 0%Z
        /\ isTPosing reset = false
        /\ tposeIndicatorElement reset = false
        /\ tPoseResetCooldownActive reset = true
        /\ cooldownTimeouts reset = cooldownTimeouts held ++ [tn + 2000]
        /\ bm_color (ballMesh reset) = CYAN
        /\ flashTimeout reset = Some (tn + 300)
        /\ gestureResets reset = S (gestureResets g)
        /\ gestureResets final = S (gestureResets g)
        /\ isTPosing final = false
        /\ tPoseResetCooldownActive final = true)
  /\ (tn - t0 == 699 ->
        reset = held
        /\ holding t0 (gestureResets g) final
        /\ gestureResets final = gestureResets g).
Proof.
  intros HT Hidle Hcool Hposes Hinc before held reset final.
  destruct (increasingFrames_between t0 tn last between Hinc)
    as [_ Hbetween].
  pose proof (animate_starts_hold first t0 g HT Hidle Hcool) as Hstart.
  assert (Hbefore : tn - t0 <= 700 ->
            forall k, holding t0 (gestureResets g) (before k)).
  { intros Hspan k. unfold before, run. cbn [fold_left dispatch].
    apply run_holding; [exact Hstart | apply allTPose_firstn, Hposes |].
    intros t world_step Hin. apply In_firstn in Hin.
    destruct (Hbetween t world_step Hin) as [_ Hlt].
    unfold T_POSE_DURATION_THRESHOLD_MS. lra. }
  assert (Hheld : tn - t0 <= 700 -> holding t0 (gestureResets g) held).
  { intros Hspan. unfold held, run. cbn [fold_left dispatch].
    apply run_holding; [exact Hstart | exact Hposes |].
    intros t world_step Hin.
    destruct (Hbetween t world_step Hin) as [_ Hlt].
    unfold T_POSE_DURATION_THRESHOLD_MS. lra. }
  assert (Hfinal : final = animate last random tn held).
  { unfold final, held, run. cbn [fold_left].
    rewrite fold_left_app. reflexivity. }
  pose proof (animate_sameGesture last tn held) as Hsame.
  fold reset in Hsame. rewrite <- Hfinal in Hsame.
  split; [exact Hfinal|].
  split; [exact Hbefore|].
  split; intros Hspan.
  - assert (Hhold : holding t0 (gestureResets g) held) by (apply Hheld; lra).
    destruct (checkForTPoseReset_holding tn t0 _ held Hhold)
      as (lms & Hlms & Hcf).
    fold reset in Hcf.
    replace (Qle_bool T_POSE_DURATION_THRESHOLD_MS (tn - t0)) with true
      in Hcf
      by (symmetry; apply Qle_bool_iff;
          unfold T_POSE_DURATION_THRESHOLD_MS; lra).
    destruct Hhold as (_ & _ & _ & _ & Hcount).
    pose proof (triggerReset_gesture tn lms held) as (_ & G2 & G3 & G4 & _).
    pose proof (triggerReset_effects tn lms held) as (E1 & E2 & E3 & E4 & E5).
    pose proof (triggerReset_freshlyReset tn lms held) as Hfresh.
    pose proof (triggerReset_gestureResets tn lms held) as Hlog.
    cbv zeta in G2, G3, G4, E1, E2, E3, E4, E5.
    rewrite <- Hcf in G2, G3, G4, E1, E2, E3, E4, E5, Hfresh, Hlog.
    rewrite Hcount in Hlog.
    pose proof (sameGesture_gestureResets _ _ Hsame) as HR.
    destruct Hsame as (_ & S2 & _ & S4 & _).
    split; [exists lms; split; assumption|].
    split; [exact Hfresh|].
    split; [exact E1|]. split; [exact E2|]. split; [exact G3|].
    split; [exact E3|]. split; [exact G2|]. split; [exact G4|].
    split; [exact E4|]. split; [exact E5|]. split; [exact Hlog|].
    split; [rewrite HR; exact Hlog|].
    split; [rewrite S2; exact G3 | rewrite S4; exact G2].
  - assert (Hhold : holding t0 (gestureResets g) held) by (apply Hheld; lra).
    destruct (checkForTPoseReset_holding tn t0 _ held Hhold)
      as (lms & Hlms & Hcf).
    fold reset in Hcf.
    replace (Qle_bool T_POSE_DURATION_THRESHOLD_MS (tn - t0)) with false
      in Hcf.
    2:{ symmetry. apply negb_true_iff.
        change (Qltb (tn - t0) T_POSE_DURATION_THRESHOLD_MS = true).
        apply Qltb_lt. unfold T_POSE_DURATION_THRESHOLD_MS. lra. }
    assert (Hend : holding t0 (gestureResets g) final).
    { rewrite Hfinal.
      apply (dispatch_holding t0 _ held tn (AnimationFrame last) Hhold).
      unfold T_POSE_DURATION_THRESHOLD_MS. lra. }
    split; [exact Hcf|]. split; [exact Hend|].
    destruct Hend as (_ & _ & _ & _ & Hcount). exact Hcount.
Qed.

(** *** The cooldown *)



(** A frame that logs a gesture reset starts a cooldown. *)
Lemma animate_starts_cooldown (world_step : EngineStep) (t0 : Q)
    (g : Game) :
  cooldownTimersTracked g ->
  gestureResets (animate world_step random t0 g) = S (gestureResets g) ->
  coolingDown t0 (S (gestureResets g)) (animate world_step random t0 g).
Proof.
  intros [Htracked _] Hfired.
  pose proof (animate_sameGesture world_step t0 g) as Hsame.
  pose proof (sameGesture_gestureResets _ _ Hsame) as HR.
  destruct Hsame as (_ & _ & _ & S4 & S5 & _).
  destruct (checkForTPoseReset_cases t0 g) as [(Hlog & _)|(Hcool & lms & Hcf)].
  - exfalso. rewrite HR in Hfired. unfold gestureResets in Hfired.
    rewrite Hlog in Hfired. lia.
  - destruct (triggerReset_gesture t0 lms g) as (_ & T2 & _ & T4 & _).
    rewrite <- Hcf in T2, T4.
    unfold coolingDown. rewrite S4, S5, T2, T4, (Htracked Hcool).
    repeat split; [|exact Hfired].
    constructor; [apply Qle_refl | constructor].
Qed.



(** The timers of the cooldown are tracked in every state the game
    reaches. *)
Lemma dispatch_cooldownTimersTracked (g : Game) (event : Q * Callback) :
  cooldownTimersTracked g ->
  cooldownTimersTracked (dispatch random g event).
Proof.
  intros [Hclear Hone]. destruct event as [now [results|world_step|i|]];
    cbn [dispatch].
  - split; assumption.
  - pose proof (animate_sameGesture world_step now g)
      as (_ & _ & _ & S4 & S5 & _).
    unfold cooldownTimersTracked. rewrite S4, S5.
    destruct (checkForTPoseReset_cases now g)
      as [(_ & C2 & C3)|(Hcool & lms & Hcf)].
    + rewrite C2, C3. split; assumption.
    + destruct (triggerReset_gesture now lms g) as (_ & T2 & _ & T4 & _).
      rewrite Hcf, T2, T4, (Hclear Hcool). split; [discriminate | cbn; lia].
  - destruct (nth_error (cooldownTimeouts g) i) as [due|] eqn:Hnth;
      [|split; assumption].
    destruct (Qle_bool due now); [|split; assumption].
    unfold cooldownTimersTracked. cbn.
    destruct (cooldownTimeouts g) as [|d [|d' rest]]; cbn in *;
      [destruct i; discriminate | | lia].
    destruct i as [|[|i]]; cbn in *; try discriminate.
    split; [reflexivity | lia].
  - destruct (flashTimeout g) as [due|]; [|split; assumption].
    destruct (Qle_bool due now); split; assumption.
Qed.

Lemma run_cooldownTimersTracked (invMass : Q)
    (events : list (Q * Callback)) :
  cooldownTimersTracked (run random (initialGame invMass) events).
Proof.
  unfold run.
  assert (H0 : cooldownTimersTracked (initialGame invMass))
    by (split; [reflexivity | cbn; lia]).
  revert H0. generalize (initialGame invMass).
  induction events as [|event rest IH]; intros g Hg; cbn [fold_left];
    [exact Hg|].
  apply IH, dispatch_cooldownTimersTracked, Hg.
Qed.

(** *** Limbs without a landmark *)

(** A limb whose landmark the mapper rejects, or a frame without landmarks,
    leaves the limb's collider as it was. *)
Lemma updatePlayer_missing_leftKnee (g : Game) :
  match currentLandmarks g with
  | Some landmarks => mapLandmarkToWorld (lookup landmarks L_KNEE) = None
  | None => True
  end ->
  leftKneeCollider (physicsWorld (updatePlayer g))
  = leftKneeCollider (physicsWorld g).
Proof.
  unfold updatePlayer. destruct (currentLandmarks g) as [lms|].
  - intros ->. reflexivity.
  - reflexivity.
Qed.

End Loop.


(** ** The sample game *)

(** C1 on the code.  In [trackedGame] the left knee proxy is in play at
    (-0.175, 1.15, 0).  One frame later, with the left knee landmark at
    visibility 0.1 (rejected by the mapper) or with no landmarks at all, the
    marker mesh is hidden but the proxy is exactly where it was, with no
    new target: it is not moved off the play area. *)
Theorem vanished_limb_stays_in_play :
  let proxy (g : Game) := parent (leftKneeCollider (physicsWorld g)) in
  v_x (kb_translation (proxy trackedGame)) == -0.175
  /\ v_y (kb_translation (proxy trackedGame)) == 1.15
  /\ mesh_visible (leftKneeMesh trackedGame) = true
  /\ mapLandmarkToWorld (lookup hiddenKneeLandmarks L_KNEE) = None
  /\ proxy hiddenKneeGame = proxy trackedGame
  /\ mesh_visible (leftKneeMesh hiddenKneeGame) = false
  /\ currentLandmarks lostPoseGame = None
  /\ proxy lostPoseGame = proxy trackedGame
  /\ mesh_visible (leftKneeMesh lostPoseGame) = false
  /\ kb_translation (proxy (initialGame 14)) = offStage
  /\ ~ v_y (kb_translation (proxy hiddenKneeGame)) == v_y offStage
  /\ ~ v_y (kb_translation (proxy lostPoseGame)) == v_y offStage.
Proof.
  vm_compute. repeat split; discriminate.
Qed.

(** C2 at a batch of four events on the initial game: ground-ball, then
    ball-left knee, right foot-ball and ball-right knee. *)
Lemma collision_scores_once_witness :
  score (drainCollisionEvents 0
           [mkCollisionEvent 0%N 1%N true; mkCollisionEvent 1%N 2%N true;
            mkCollisionEvent 5%N 1%N true; mkCollisionEvent 1%N 3%N true]
           (initialGame 14)) = 1%Z.
Proof.
  pose proof (collision_scores_once 0 (initialGame 14)
                [mkCollisionEvent 0%N 1%N true] (mkCollisionEvent 1%N 2%N true)
                [mkCollisionEvent 5%N 1%N true; mkCollisionEvent 1%N 3%N true]
                eq_refl eq_refl eq_refl) as H.
  cbv zeta in H. destruct H as (_ & _ & _ & _ & H & _). exact H.
Defined.

(** C3 at a hold from 1000 to 1700, with a frame and a pose result in
    between. *)
Lemma hold_of_700ms_resets_once_witness :
  let final :=
    sampleRun (onPoseResults tPoseResults (initialGame 14))
      ((1000, AnimationFrame kinematic_step)
       :: [(1016, AnimationFrame kinematic_step);
           (1350, PoseResult tPoseResults);
           (1400, AnimationFrame kinematic_step)]
       ++ [(1700, AnimationFrame kinematic_step)]) in
  gestureResets final = 1%nat
  /\ isTPosing final = false
  /\ tPoseResetCooldownActive final = true.
Proof.
  assert (H : 1700 - 1000 == 700) by reflexivity.
  refine ((fun claim =>
             match proj1 (proj2 (proj2 claim)) H with
             | conj _ (conj _ (conj _ (conj _ (conj _ (conj _ (conj _
                 (conj _ (conj _ (conj _ (conj _ final)))))))))) => final
             end)
            (hold_of_700ms_resets_once quarter_random
               (onPoseResults tPoseResults (initialGame 14)) 1000 1700
               kinematic_step kinematic_step
               [(1016, AnimationFrame kinematic_step);
                (1350, PoseResult tPoseResults);
                (1400, AnimationFrame kinematic_step)] _ _ _ _ _)).
  - vm_compute. reflexivity.
  - reflexivity.
  - reflexivity.
  - vm_compute. reflexivity.
  - vm_compute. repeat split.
Defined.


(** C6 at the raised arms. *)
Lemma armHorizontal_droop_only_witness :
  leftArmHorizontal (mkLandmark 0.6 0.8 0 0.9) (mkLandmark 0.75 0.45 0 0.9)
    (mkLandmark 0.9 0.1 0 0.9) = true.
Proof.
  apply (proj1 (armHorizontal_droop_only _ _ _)).
  split; vm_compute; reflexivity.
Defined.

(** C8 at a ball 0.3 below the ground plane and at a ball at height 9,
    with a score of 3. *)
Lemma bounds_check_witness :
  let g := set_score 3%Z (initialGame 14) in
  score (gameLogic quarter_random 0
           {| v_x := 0; v_y := -0.3; v_z := 0 |} g) = 0%Z
  /\ score (gameLogic quarter_random 0
              {| v_x := 0; v_y := 9; v_z := 0 |} g) = 3%Z.
Proof.
  intros g. split.
  - destruct (bounds_check quarter_random 0
                {| v_x := 0; v_y := -0.3; v_z := 0 |} g 14 [])
      as (_ & _ & _ & _ & Hdrop & _).
    apply Hdrop. split; [vm_compute; reflexivity | reflexivity].
  - destruct (bounds_check quarter_random 0
                {| v_x := 0; v_y := 9; v_z := 0 |} g 14 [])
      as (_ & _ & _ & _ & _ & Hout & _).
    apply Hout.
    + intros [H _]. vm_compute in H. discriminate.
    + left. vm_compute. reflexivity.
Defined.

(** C9 at vertical velocities 7 and 3. *)
Lemma clamp_upward_velocity_witness :
  let moving (vy : Q) :=
    onBallBody (setLinvel {| v_x := 0; v_y := vy; v_z := 0 |})
      (initialGame 14) in
  let pass (g : Game) :=
    let v := rb_linvel (ballBody (physicsWorld g)) in
    let p := rb_translation (ballBody (physicsWorld g)) in
    let s := clampMaximumUpwardVelocity v g in
    constrainZAxisMovement (snd s) p (resetHitFlag (snd s) p (fst s)) in
  v_y (rb_linvel (ballBody (physicsWorld (pass (moving 7))))) = 5
  /\ v_y (rb_linvel (ballBody (physicsWorld (pass (moving 3))))) = 3.
Proof.
  intros moving pass. split.
  - destruct (clamp_upward_velocity (moving 7)
                (rb_translation (ballBody (physicsWorld (moving 7)))))
      as (_ & _ & _ & H7 & _).
    apply H7. vm_compute. reflexivity.
  - destruct (clamp_upward_velocity (moving 3)
                (rb_translation (ballBody (physicsWorld (moving 3)))))
      as (_ & _ & _ & _ & H3).
    apply H3. vm_compute. reflexivity.
Defined.

(** C10 at a default respawn of the initial game. *)
Lemma toGrid_monotone (a b : Q) : a <= b -> toGrid a <= toGrid b.
Proof.
  intros H. unfold toGrid, Qdiv. apply Qmult_le_compat_r; [|discriminate].
  rewrite <- Zle_Qle. apply Qfloor_resp_le. lra.
Qed.

Lemma reset_leaves_fresh_ball_witness :
  let g := resetBall quarter_random None None (initialGame 14) in
  let p := storedTranslation toGrid (ballBody (physicsWorld g)) in
  freshlyReset g
  /\ v_y p == 4.0
  /\ -0.5 <= v_x p /\ v_x p <= 0.5.
Proof.
  intros g p.
  assert (Hrandom : forall n, 0 <= quarter_random n /\ quarter_random n < 1).
  { intros n. split; vm_compute; [discriminate | reflexivity]. }
  destruct (reset_leaves_fresh_ball quarter_random toGrid 0 (initialGame 14)
              None None tPoseLandmarks {| v_x := 0; v_y := 0; v_z := 0 |}
              Hrandom toGrid_monotone)
    as (Hfresh & _ & _ & Hy & Hx & _); try (vm_compute; reflexivity).
  split; [exact Hfresh|]. split; [exact Hy|]. exact (proj2 (Hx eq_refl)).
Defined.

(** * Further properties *)

(** ** The landmark mapper *)

(** X1.  A landmark inside the image (x and y in [0, 1]) that the mapper
    accepts is mapped inside the play area: x in [-1.75, 1.75], y in
    [0.1, 3.6], z = 0, well within the bounds of part 7. *)
Theorem mapLandmarkToWorld_in_play (lm : Landmark) :
  0 <= lm_x lm <= 1 -> 0 <= lm_y lm <= 1 -> 0.3 <= lm_visibility lm ->
  exists p,
    mapLandmarkToWorld (Some lm) = Some p
    /\ -1.75 <= v_x p <= 1.75
    /\ 0.1 <= v_y p <= 3.6
    /\ v_z p == 0
    /\ outOfBounds p = false.
Proof.
  intros [Hx0 Hx1] [Hy0 Hy1] Hvis. cbn [mapLandmarkToWorld].
  apply Qltb_ge in Hvis. rewrite Hvis.
  eexists. split; [reflexivity|]. cbn [v_x v_y v_z].
  unfold worldWidth, worldHeight, xOffset, yOffset.
  set (gameY := (1.0 - lm_y lm) * 3.5 + 0.1).
  assert (HgY : 0.1 <= gameY <= 3.6) by (unfold gameY; split; lra).
  assert (Hmax : 0.1 <= Qmax 0 gameY <= 3.6).
  { split.
    - apply Qle_trans with gameY; [tauto | apply Q.le_max_r].
    - apply Q.max_lub; [lra | tauto]. }
  assert (HX : -1.75 <= (1.0 - lm_x lm - 0.5) * 3.5 + 0 <= 1.75)
    by (split; lra).
  repeat split; try tauto; try reflexivity.
  unfold outOfBounds. cbn [v_x v_y v_z].
  rewrite !orb_false_iff, !Qltb_ge. repeat split.
  - lra.
  - apply Qabs_Qle_condition. split; lra.
  - vm_compute. discriminate.
Qed.

Lemma mapLandmarkToWorld_in_play_witness :
  exists p,
    mapLandmarkToWorld (Some (mkLandmark 0.55 0.7 0 0.9)) = Some p
    /\ outOfBounds p = false.
Proof.
  destruct (mapLandmarkToWorld_in_play (mkLandmark 0.55 0.7 0 0.9))
    as (p & Hp & _ & _ & _ & Hin).
  - split; vm_compute; discriminate.
  - split; vm_compute; discriminate.
  - vm_compute; discriminate.
  - exists p. split; assumption.
Defined.

(** X2.  The mapper mirrors: a landmark and its mirror image (x to 1 - x)
    are accepted or rejected together, and their world points have
    opposite x and the same y and z. *)
Theorem mapLandmarkToWorld_mirror (lm : Landmark) :
  match mapLandmarkToWorld (Some lm),
        mapLandmarkToWorld (Some (mirrorX lm)) with
  | Some p, Some q => v_x q == - v_x p /\ v_y q = v_y p /\ v_z q = v_z p
  | None, None => True
  | _, _ => False
  end.
Proof.
  cbn [mapLandmarkToWorld mirrorX lm_visibility lm_x lm_y].
  destruct (Qltb (lm_visibility lm) 0.3); [exact I|].
  cbn [v_x v_y v_z]. repeat split.
  unfold worldWidth, xOffset. ring.
Qed.

(** ** The T-pose detector *)

(** X3.  The detector answers false whenever one of the six arm entries is
    missing (the array is absent or too short, or the entry undefined) or
    has visibility 0.4 or less, whatever the geometry. *)
Theorem checkTPose_needs_visible_arms (landmarks : Landmarks) (i : nat) :
  In i [L_SHOULDER; R_SHOULDER; L_ELBOW; R_ELBOW; L_WRIST; R_WRIST] ->
  match lookup landmarks i with
  | Some lm => lm_visibility lm <= 0.4
  | None => True
  end ->
  checkTPose (Some landmarks) = false /\ checkTPose None = false.
Proof.
  intros Hi Hlow. split; [|reflexivity].
  assert (Hgate : visibleEnough (lookup landmarks i) = false).
  { destruct (lookup landmarks i) as [lm|]; [|reflexivity].
    apply Qltb_ge. exact Hlow. }
  rewrite checkTPose_entries.
  cbn [In] in Hi.
  destruct (lookup landmarks L_SHOULDER) as [lS|] eqn:E1; [|reflexivity].
  destruct (lookup landmarks R_SHOULDER) as [rS|] eqn:E2; [|reflexivity].
  destruct (lookup landmarks L_ELBOW) as [lE|] eqn:E3; [|reflexivity].
  destruct (lookup landmarks R_ELBOW) as [rE|] eqn:E4; [|reflexivity].
  destruct (lookup landmarks L_WRIST) as [lW|] eqn:E5; [|reflexivity].
  destruct (lookup landmarks R_WRIST) as [rW|] eqn:E6; [|reflexivity].
  apply andb_false_iff. left.
  destruct Hi as [<-|[<-|[<-|[<-|[<-|[<-|[]]]]]]];
    [rewrite E1 in Hgate | rewrite E2 in Hgate | rewrite E3 in Hgate
     | rewrite E4 in Hgate | rewrite E5 in Hgate | rewrite E6 in Hgate];
    rewrite Hgate; repeat rewrite ?andb_false_r, ?andb_false_l; reflexivity.
Qed.

Lemma checkTPose_needs_visible_arms_witness :
  checkTPose (Some (repeat None 12)) = false /\ checkTPose None = false.
Proof.
  apply (checkTPose_needs_visible_arms (repeat None 12) R_ELBOW).
  - vm_compute. tauto.
  - vm_compute. exact I.
Defined.

(** X4.  A detected T-pose has all six arm joints in the array with
    visibility above 0.4, each wrist more than 0.2 beyond its shoulder
    (left wrist towards larger x, right wrist towards smaller x), neither
    elbow 0.3 or more below its shoulder, and both shoulders accepted by the
    landmark mapper. *)
Theorem checkTPose_true_geometry (landmarks : Landmarks) :
  checkTPose (Some landmarks) = true ->
  exists lS rS lE rE lW rW,
    lookup landmarks L_SHOULDER = Some lS
    /\ lookup landmarks R_SHOULDER = Some rS
    /\ lookup landmarks L_ELBOW = Some lE
    /\ lookup landmarks R_ELBOW = Some rE
    /\ lookup landmarks L_WRIST = Some lW
    /\ lookup landmarks R_WRIST = Some rW
    /\ Forall (fun lm => 0.4 < lm_visibility lm) [lS; rS; lE; rE; lW; rW]
    /\ lm_x lS + 0.2 < lm_x lW
    /\ lm_x rW + 0.2 < lm_x rS
    /\ lm_y lE < lm_y lS + 0.3
    /\ lm_y rE < lm_y rS + 0.3
    /\ mapLandmarkToWorld (Some lS) <> None
    /\ mapLandmarkToWorld (Some rS) <> None.
Proof.
  rewrite checkTPose_entries.
  destruct (lookup landmarks L_SHOULDER) as [lS|]; [|discriminate].
  destruct (lookup landmarks R_SHOULDER) as [rS|]; [|discriminate].
  destruct (lookup landmarks L_ELBOW) as [lE|]; [|discriminate].
  destruct (lookup landmarks R_ELBOW) as [rE|]; [|discriminate].
  destruct (lookup landmarks L_WRIST) as [lW|]; [|discriminate].
  destruct (lookup landmarks R_WRIST) as [rW|]; [|discriminate].
  unfold visibleEnough, leftArmHorizontal, leftArmExtended, leftArmOutward,
    rightArmHorizontal, rightArmExtended, rightArmOutward.
  rewrite !andb_true_iff, !Qltb_lt.
  unfold LANDMARK_VISIBILITY_THRESHOLD, yTolerance, xToleranceShoulder,
    xToleranceElbow.
  intros H.
  destruct H as ((((((V1 & V2) & V3) & V4) & V5) & V6) & G).
  destruct G as (((((LH & LX) & LO) & RH) & RX) & RO).
  destruct LH as [LH1 LH2], LX as [LX1 LX2], LO as [LO1 LO2],
    RH as [RH1 RH2], RX as [RX1 RX2], RO as [RO1 RO2].
  rewrite Qabs_pos in LX1 by lra. rewrite Qabs_pos in LX2 by lra.
  rewrite Qabs_neg in RX1 by lra. rewrite Qabs_neg in RX2 by lra.
  exists lS, rS, lE, rE, lW, rW.
  repeat split; try assumption; try lra.
  - repeat constructor; assumption.
  - cbn [mapLandmarkToWorld].
    replace (Qltb (lm_visibility lS) 0.3) with false; [discriminate|].
    symmetry. apply Qltb_ge. lra.
  - cbn [mapLandmarkToWorld].
    replace (Qltb (lm_visibility rS) 0.3) with false; [discriminate|].
    symmetry. apply Qltb_ge. lra.
Qed.

Lemma checkTPose_true_geometry_witness :
  exists lS rS,
    lookup tPoseLandmarks L_SHOULDER = Some lS
    /\ lookup tPoseLandmarks R_SHOULDER = Some rS
    /\ mapLandmarkToWorld (Some lS) <> None
    /\ mapLandmarkToWorld (Some rS) <> None.
Proof.
  destruct (checkTPose_true_geometry tPoseLandmarks)
    as (lS & rS & lE & rE & lW & rW & H1 & H2 & _ & _ & _ & _ & _ & _ & _
        & _ & _ & M1 & M2).
  - vm_compute. reflexivity.
  - exists lS, rS. repeat split; assumption.
Defined.

(** ** The overlay landmarks *)

Lemma bodyLandmarksFrom_entries (landmarks : Landmarks) :
  forall (index : nat) (out : Landmarks),
    bodyLandmarksFrom index landmarks = Some out ->
    List.length out = List.length landmarks
    /\ forall i,
         lookup out i
         = if (11 <=? index + i)%nat then lookup landmarks i
           else option_map
                  (fun lm => mkLandmark (lm_x lm) (lm_y lm) (lm_z lm) 0)
                  (lookup landmarks i).
Proof.
  induction landmarks as [|landmark rest IH]; intros index out Hout.
  - injection Hout as <-. split; [reflexivity|].
    intros i. destruct (11 <=? index + i)%nat; destruct i; reflexivity.
  - cbn [bodyLandmarksFrom] in Hout.
    destruct (11 <=? index)%nat eqn:Hidx.
    + destruct (bodyLandmarksFrom (S index) rest) as [entries|] eqn:Hrest;
        [|discriminate].
      injection Hout as <-. destruct (IH _ _ Hrest) as [Hlen Hall].
      split; [cbn; rewrite Hlen; reflexivity|].
      intros [|i].
      * rewrite Nat.add_0_r, Hidx. reflexivity.
      * specialize (Hall i). rewrite Nat.add_succ_r.
        cbn [Nat.add] in Hall. exact Hall.
    + destruct landmark as [lm|]; [|discriminate].
      destruct (bodyLandmarksFrom (S index) rest) as [entries|] eqn:Hrest;
        [|discriminate].
      injection Hout as <-. destruct (IH _ _ Hrest) as [Hlen Hall].
      split; [cbn; rewrite Hlen; reflexivity|].
      intros [|i].
      * rewrite Nat.add_0_r, Hidx. reflexivity.
      * specialize (Hall i). rewrite Nat.add_succ_r.
        cbn [Nat.add] in Hall. exact Hall.
Qed.

Lemma bodyLandmarksFrom_throws (landmarks : Landmarks) :
  forall index,
    bodyLandmarksFrom index landmarks = None
    <-> exists i, (index + i < 11)%nat /\ nth_error landmarks i = Some None.
Proof.
  induction landmarks as [|landmark rest IH]; intros index.
  - split; [discriminate|]. intros (i & _ & Hi). destruct i; discriminate.
  - cbn [bodyLandmarksFrom]. destruct (Nat.leb_spec 11 index) as [Hge|Hlt].
    + destruct (bodyLandmarksFrom (S index) rest) eqn:Hrest.
      * split; [discriminate|]. intros (i & Hi & _). lia.
      * split; [|reflexivity]. intros _.
        apply IH in Hrest. destruct Hrest as (i & Hi & _). lia.
    + destruct landmark as [lm|].
      * destruct (bodyLandmarksFrom (S index) rest) eqn:Hrest.
        -- split; [discriminate|]. intros ([|i] & Hi & Hnth);
             [discriminate|].
           assert (Hnone : bodyLandmarksFrom (S index) rest = None).
           { apply IH. exists i. split; [lia | exact Hnth]. }
           congruence.
        -- split; [|reflexivity]. intros _.
           apply IH in Hrest. destruct Hrest as (i & Hi & Hnth).
           exists (S i). split; [lia | exact Hnth].
      * split; [|reflexivity]. intros _. exists 0%nat.
        split; [lia | reflexivity].
Qed.

(** X6.  The landmark array handed to [drawConnectors].  Building it throws
    exactly when one of the first eleven entries is undefined.  Otherwise
    the array has the length of the pose array, keeps every entry from
    index 11 on, and turns each earlier (face) landmark into a copy of
    visibility 0; the T-pose detector answers the same on both arrays, and
    the landmark mapper rejects every face entry of the built array. *)
Theorem bodyLandmarks_hides_face (landmarks : Landmarks) :
  (bodyLandmarks landmarks = None
   <-> exists i, (i < 11)%nat /\ nth_error landmarks i = Some None)
  /\ forall out,
       bodyLandmarks landmarks = Some out ->
       List.length out = List.length landmarks
       /\ (forall i, (11 <= i)%nat -> lookup out i = lookup landmarks i)
       /\ (forall i lm,
             (i < 11)%nat -> lookup landmarks i = Some lm ->
             lookup out i
             = Some (mkLandmark (lm_x lm) (lm_y lm) (lm_z lm) 0))
       /\ checkTPose (Some out) = checkTPose (Some landmarks)
       /\ (forall i, (i < 11)%nat -> mapLandmarkToWorld (lookup out i) = None).
Proof.
  split; [apply (bodyLandmarksFrom_throws landmarks 0)|].
  intros out Hout.
  destruct (bodyLandmarksFrom_entries landmarks 0 out Hout) as [Hlen Hall].
  cbn [Nat.add] in Hall.
  assert (Hbody : forall i, (11 <= i)%nat -> lookup out i = lookup landmarks i).
  { intros i Hi. rewrite Hall.
    destruct (Nat.leb_spec 11 i); [reflexivity | lia]. }
  assert (Hface : forall i, (i < 11)%nat ->
            lookup out i
            = option_map
                (fun lm => mkLandmark (lm_x lm) (lm_y lm) (lm_z lm) 0)
                (lookup landmarks i)).
  { intros i Hi. rewrite Hall.
    destruct (Nat.leb_spec 11 i); [lia | reflexivity]. }
  split; [exact Hlen|]. split; [exact Hbody|]. split; [|split].
  - intros i lm Hi Hlm. rewrite (Hface i Hi), Hlm. reflexivity.
  - rewrite !checkTPose_entries.
    unfold L_SHOULDER, R_SHOULDER, L_ELBOW, R_ELBOW, L_WRIST, R_WRIST.
    rewrite !Hbody by lia. reflexivity.
  - intros i Hi. rewrite (Hface i Hi).
    destruct (lookup landmarks i); reflexivity.
Qed.

Lemma bodyLandmarks_hides_face_witness :
  exists out,
    bodyLandmarks tPoseLandmarks = Some out
    /\ checkTPose (Some out) = checkTPose (Some tPoseLandmarks).
Proof.
  destruct (bodyLandmarks tPoseLandmarks) as [out|] eqn:Hout;
    [|vm_compute in Hout; discriminate].
  exists out. split; [reflexivity|].
  apply (proj2 (bodyLandmarks_hides_face tPoseLandmarks) out Hout).
Defined.

Lemma filteredLandmarksFrom_skipn (landmarks : Landmarks) :
  forall index,
    filteredLandmarksFrom index landmarks = skipn (11 - index) landmarks.
Proof.
  induction landmarks as [|landmark rest IH]; intros index.
  - destruct (11 - index)%nat; reflexivity.
  - cbn [filteredLandmarksFrom]. destruct (Nat.leb_spec 11 index) as [Hge|Hlt].
    + rewrite IH. replace (11 - index)%nat with 0%nat by lia.
      replace (11 - S index)%nat with 0%nat by lia. reflexivity.
    + rewrite IH. replace (11 - index)%nat with (S (11 - S index)) by lia.
      reflexivity.
Qed.

(** X7.  The landmark array handed to [drawLandmarks] is the pose array
    without its first eleven entries: entry [i] is entry [11 + i] of the
    pose array, and an array of eleven entries or fewer gives the empty
    array. *)
Theorem filteredLandmarks_drops_face (landmarks : Landmarks) :
  filteredLandmarks landmarks = skipn 11 landmarks
  /\ List.length (filteredLandmarks landmarks)
     = (List.length landmarks - 11)%nat
  /\ (forall i,
        lookup (filteredLandmarks landmarks) i = lookup landmarks (11 + i))
  /\ ((List.length landmarks <= 11)%nat -> filteredLandmarks landmarks = []).
Proof.
  assert (H : filteredLandmarks landmarks = skipn 11 landmarks)
    by apply (filteredLandmarksFrom_skipn landmarks 0).
  rewrite H. split; [reflexivity|]. split; [apply length_skipn|]. split.
  - intros i. unfold lookup. rewrite nth_error_skipn. reflexivity.
  - intros Hshort. apply skipn_all2. exact Hshort.
Qed.

(** ** The instructions overlay *)

(** X8.  Once shown at time [t], the overlay stays visible through every
    button click and timer callback that comes from [t] up to, but not
    including, [t + 10000]: only a click on the overlay hides it earlier.
    And whatever happens, a timer is pending only while the overlay is
    visible. *)
Theorem instructions_stay_visible (t : Q) (o : Instructions)
    (events : list (Q * InstructionsEvent)) :
  (Forall (fun event => t <= fst event /\ fst event < t + 10000
                        /\ snd event <> overlayClick) events ->
   overlayVisible (runInstructions (showInstructions t o) events) = true)
  /\ ((instructionsTimeout o <> None -> overlayVisible o = true) ->
      instructionsTimeout (runInstructions o events) <> None ->
      overlayVisible (runInstructions o events) = true).
Proof.
  split.
  - assert (Hinv : forall shown,
              overlayVisible shown = true ->
              (exists due, instructionsTimeout shown = Some due
                           /\ t + 10000 <= due) ->
              Forall (fun event => t <= fst event /\ fst event < t + 10000
                                   /\ snd event <> overlayClick) events ->
              overlayVisible (runInstructions shown events) = true).
    { unfold runInstructions.
      induction events as [|[now e] rest IH]; intros shown Hvis Hdue Hall;
        cbn [fold_left]; [exact Hvis|].
      inversion Hall as [|event rest' (Hfrom & Hto & Hclick) Hrest]; subst.
      cbn [fst snd] in *. destruct Hdue as (due & Hpending & Hlate).
      destruct e; cbn [dispatchInstructions].
      - apply IH; [reflexivity | | exact Hrest].
        exists (now + 10000). split; [reflexivity | lra].
      - congruence.
      - rewrite Hpending.
        destruct (Qle_bool due now) eqn:Hfire.
        + apply Qle_bool_iff in Hfire. exfalso. lra.
        + apply IH; [exact Hvis | | exact Hrest].
          exists due. split; assumption. }
    intros Hall. apply Hinv; [reflexivity | | exact Hall].
    exists (t + 10000). split; [reflexivity | apply Qle_refl].
  - unfold runInstructions. revert o.
    induction events as [|[now e] rest IH]; intros o Hinv; cbn [fold_left];
      [exact Hinv|].
    apply IH. destruct e; cbn [dispatchInstructions].
    + reflexivity.
    + intros H. exfalso. apply H. reflexivity.
    + destruct (instructionsTimeout o) as [due|] eqn:Hpending;
        [|rewrite Hpending; exact Hinv].
      destruct (Qle_bool due now).
      * intros H. exfalso. apply H. reflexivity.
      * rewrite Hpending. exact Hinv.
Qed.

Lemma instructions_stay_visible_witness :
  overlayVisible
    (runInstructions (showInstructions 0 (mkInstructions false None))
       [(5000, instructionsTimer); (6000, buttonClick);
        (9999, instructionsTimer)]) = true.
Proof.
  apply (proj1 (instructions_stay_visible 0 (mkInstructions false None) _)).
  repeat (constructor;
          [cbn [fst snd]; repeat split;
           try (vm_compute; discriminate); try (vm_compute; reflexivity)|]).
  constructor.
Defined.

(** ** The game loop, continued *)

Section Frames.

Variable random : nat -> Q.

(** *** What is displayed *)

Ltac display :=
  unfold indicatorShowsHold, scoreShown, whiteUnlessFlashing;
  cbn; intros; try discriminate; try congruence; auto.

Lemma resetBall_display (spawnX spawnZ : option Q) (g : Game) :
  let g' := resetBall random spawnX spawnZ g in
  tposeIndicatorElement g' = tposeIndicatorElement g
  /\ scoreElement g' = scoreElement g
  /\ bm_color (ballMesh g') = WHITE
  /\ flashTimeout g' = flashTimeout g.
Proof.
  unfold resetBall, Math_random. destruct spawnX, spawnZ; repeat split.
Qed.

Lemma triggerReset_display (now : Q) (landmarks : Landmarks) (g : Game) :
  let g' := triggerReset random now landmarks g in
  indicatorShowsHold g' /\ scoreShown g' /\ whiteUnlessFlashing g'.
Proof.
  unfold triggerReset. display. repeat split; display.
Qed.

Lemma checkForTPoseReset_display (now : Q) (g : Game) :
  let g' := checkForTPoseReset random now g in
  (indicatorShowsHold g -> indicatorShowsHold g')
  /\ (scoreShown g -> scoreShown g')
  /\ (whiteUnlessFlashing g -> whiteUnlessFlashing g').
Proof.
  unfold checkForTPoseReset.
  destruct (currentLandmarks g) as [lms|];
    destruct (tPoseResetCooldownActive g);
    try (destruct (isTPosing g) eqn:Hhold; repeat split; display; fail).
  destruct (checkTPose (Some lms)); cbn zeta.
  - destruct (isTPosing g) eqn:Hhold; cbn [negb].
    + destruct (Qle_bool _ _); [|tauto].
      destruct (triggerReset_display now lms g) as (H1 & H2 & H3).
      repeat split; intros _; assumption.
    + repeat split; display.
  - destruct (isTPosing g) eqn:Hhold; repeat split; display.
Qed.

Lemma updatePlayer_display (g : Game) :
  let g' := updatePlayer g in
  tposeIndicatorElement g' = tposeIndicatorElement g
  /\ scoreElement g' = scoreElement g
  /\ bm_color (ballMesh g') = bm_color (ballMesh g)
  /\ flashTimeout g' = flashTimeout g.
Proof.
  unfold updatePlayer. destruct (currentLandmarks g); repeat split.
Qed.

Lemma collisionCallback_display (now : Q) (g : Game) (ev : CollisionEvent) :
  let g' := collisionCallback now g ev in
  tposeIndicatorElement g' = tposeIndicatorElement g
  /\ (scoreShown g -> scoreShown g')
  /\ (whiteUnlessFlashing g -> whiteUnlessFlashing g').
Proof.
  cbv zeta. rewrite collisionCallback_test.
  destruct (ballLimbStart _ _ && negb _); repeat split; display.
Qed.

Lemma drainCollisionEvents_display (now : Q) (events : list CollisionEvent)
    (g : Game) :
  let g' := drainCollisionEvents now events g in
  tposeIndicatorElement g' = tposeIndicatorElement g
  /\ (scoreShown g -> scoreShown g')
  /\ (whiteUnlessFlashing g -> whiteUnlessFlashing g').
Proof.
  unfold drainCollisionEvents. revert g.
  induction events as [|ev rest IH]; intros g; cbn [fold_left].
  - repeat split; auto.
  - destruct (collisionCallback_display now g ev) as (H1 & H2 & H3).
    destruct (IH (collisionCallback now g ev)) as (I1 & I2 & I3).
    cbv zeta in *. repeat split; [congruence | auto | auto].
Qed.

Lemma stepPhysics_display (world_step : EngineStep) (now : Q) (g : Game) :
  let g' := stepPhysics world_step now g in
  tposeIndicatorElement g' = tposeIndicatorElement g
  /\ (scoreShown g -> scoreShown g')
  /\ (whiteUnlessFlashing g -> whiteUnlessFlashing g').
Proof.
  unfold stepPhysics. destruct (world_step (physicsWorld g)) as [w events].
  apply (drainCollisionEvents_display now events (set_physicsWorld w g)).
Qed.

Lemma beforeGameLogic_display (g : Game) :
  let g' := beforeGameLogic g in
  tposeIndicatorElement g' = tposeIndicatorElement g
  /\ scoreElement g' = scoreElement g
  /\ bm_color (ballMesh g') = bm_color (ballMesh g)
  /\ flashTimeout g' = flashTimeout g.
Proof.
  unfold beforeGameLogic, clampMaximumUpwardVelocity, resetHitFlag.
  cbn [set_ballMesh physicsWorld ballBody].
  destruct (Qltb MAX_UPWARD_VELOCITY _); cbn [fst snd];
    destruct (Qltb _ (-0.1) || Qltb _ 0.5); repeat split.
Qed.

Lemma gameLogic_display (now : Q) (ballPosition : Vec3) (g : Game) :
  let g' := gameLogic random now ballPosition g in
  tposeIndicatorElement g' = tposeIndicatorElement g
  /\ (scoreShown g -> scoreShown g')
  /\ (whiteUnlessFlashing g -> whiteUnlessFlashing g').
Proof.
  cbv zeta. rewrite gameLogic_cases.
  destruct (resetBall_display None None g) as (R1 & R2 & R3 & R4).
  pose proof (resetBall_score random None None g) as R5.
  cbv zeta in *.
  destruct (Qltb _ _ && negb _); [repeat split; display|].
  destruct (outOfBounds ballPosition); repeat split; display.
Qed.

Lemma animate_display (world_step : EngineStep) (now : Q) (g : Game) :
  let g' := animate world_step random now g in
  (indicatorShowsHold g -> indicatorShowsHold g')
  /\ (scoreShown g -> scoreShown g')
  /\ (whiteUnlessFlashing g -> whiteUnlessFlashing g').
Proof.
  cbv zeta. unfold animate. rewrite postPhysics_gameLogic.
  set (g1 := checkForTPoseReset random now g).
  set (g2 := updatePlayer g1).
  set (g3 := stepPhysics world_step now g2).
  set (g4 := beforeGameLogic g3).
  destruct (checkForTPoseReset_display now g) as (A1 & A2 & A3).
  fold g1 in A1, A2, A3.
  destruct (updatePlayer_display g1) as (B1 & B2 & B3 & B4).
  fold g2 in B1, B2, B3, B4.
  destruct (stepPhysics_display world_step now g2) as (C1 & C2 & C3).
  fold g3 in C1, C2, C3.
  destruct (beforeGameLogic_display g3) as (D1 & D2 & D3 & D4).
  fold g4 in D1, D2, D3, D4.
  destruct (gameLogic_display now (rb_translation (ballBody (physicsWorld g3)))
              g4) as (E1 & E2 & E3).
  pose proof (sameGesture_trans _ _ _
                (sameGesture_trans _ _ _
                   (sameGesture_trans _ _ _ (updatePlayer_sameGesture g1)
                      (stepPhysics_sameGesture world_step now g2))
                   (beforeGameLogic_sameGesture g3))
                (gameLogic_sameGesture random now
                   (rb_translation (ballBody (physicsWorld g3))) g4))
    as (_ & S2 & _).
  fold g2 g3 g4 in S2.
  pose proof (updatePlayer_score g1) as U. fold g2 in U.
  pose proof (beforeGameLogic_score g3) as V. fold g4 in V.
  repeat split.
  - intros H. apply A1 in H. unfold indicatorShowsHold in *.
    rewrite E1, D1, C1, B1, S2. exact H.
  - intros H. apply E2. unfold scoreShown. rewrite D2, V.
    apply C2. unfold scoreShown. rewrite B2, U. apply A2, H.
  - intros H. apply E3. unfold whiteUnlessFlashing. rewrite D3, D4.
    apply C3. unfold whiteUnlessFlashing. rewrite B3, B4. apply A3, H.
Qed.

Lemma dispatch_display (g : Game) (event : Q * Callback) :
  let g' := dispatch random g event in
  (indicatorShowsHold g -> indicatorShowsHold g')
  /\ (scoreShown g -> scoreShown g')
  /\ (whiteUnlessFlashing g -> whiteUnlessFlashing g').
Proof.
  destruct event as [now [results|world_step|i|]]; cbn [dispatch].
  - repeat split; auto.
  - apply animate_display.
  - destruct (nth_error (cooldownTimeouts g) i) as [due|];
      [|repeat split; auto].
    destruct (Qle_bool due now); repeat split; auto.
  - destruct (flashTimeout g) as [due|]; [|repeat split; auto].
    destruct (Qle_bool due now); repeat split; auto.
Qed.

Lemma run_display (events : list (Q * Callback)) (g : Game) :
  let g' := run random g events in
  (indicatorShowsHold g -> indicatorShowsHold g')
  /\ (scoreShown g -> scoreShown g')
  /\ (whiteUnlessFlashing g -> whiteUnlessFlashing g').
Proof.
  unfold run. revert g.
  induction events as [|event rest IH]; intros g; cbn [fold_left].
  - repeat split; auto.
  - destruct (dispatch_display g event) as (H1 & H2 & H3).
    destruct (IH (dispatch random g event)) as (I1 & I2 & I3).
    cbv zeta in *. repeat split; auto.
Qed.

(** X9.  The T-pose indicator is displayed exactly while a hold is being
    tracked: if that is so in a state, it is so after everything the
    browser runs from it. *)
Theorem indicator_tracks_hold (g : Game) (events : list (Q * Callback)) :
  tposeIndicatorElement g = isTPosing g ->
  tposeIndicatorElement (run random g events)
  = isTPosing (run random g events).
Proof.
  intros H. apply (run_display events g). exact H.
Qed.

(** X10.  The score text never lags behind the score: if it shows the
    score in a state, it shows the score after everything the browser runs
    from it. *)
Theorem score_text_tracks_score (g : Game) (events : list (Q * Callback)) :
  scoreElement g = score g ->
  scoreElement (run random g events) = score (run random g events).
Proof.
  intros H. apply (run_display events g). exact H.
Qed.

(** X11.  The ball shows a flash colour only while a flash timer is
    pending: in every state reached from the initial game, and in every
    state reached from a state where it holds, a ball without a pending
    flash timer is white.  So every flash ends with the timer that restores
    white. *)
Theorem ball_white_unless_flashing (g : Game) (invMass : Q)
    (events : list (Q * Callback)) :
  ((flashTimeout g = None -> bm_color (ballMesh g) = WHITE) ->
   flashTimeout (run random g events) = None ->
   bm_color (ballMesh (run random g events)) = WHITE)
  /\ (flashTimeout (run random (initialGame invMass) events) = None ->
      bm_color (ballMesh (run random (initialGame invMass) events)) = WHITE).
Proof.
  split.
  - apply (run_display events g).
  - apply (run_display events (initialGame invMass)). intros _. reflexivity.
Qed.

(** *** The score within a frame *)

Lemma drainCollisionEvents_one_hit (now : Q) (events : list CollisionEvent)
    (g : Game) :
  score (drainCollisionEvents now events g) = score g
  \/ score (drainCollisionEvents now events g) = (score g + 1)%Z.
Proof.
  unfold drainCollisionEvents. revert g.
  induction events as [|ev rest IH]; intros g; cbn [fold_left];
    [left; reflexivity|].
  rewrite collisionCallback_test.
  destruct (ballLimbStart _ _ && negb _).
  - right.
    match goal with
    | |- score (fold_left _ _ ?hit) = _ =>
        change (score (drainCollisionEvents now rest hit) = (score g + 1)%Z);
        rewrite (drainCollisionEvents_flag_set now rest hit eq_refl)
    end.
    reflexivity.
  - apply IH.
Qed.

(** X12.  A frame adds at most one keep-up, however many collision events
    the step reports and whatever the hit flag was: after the frame the
    score is the old score, the old score plus one, 0 (a reset) or 1 (a
    gesture reset followed by a hit in the same frame). *)
Theorem frame_adds_at_most_one (world_step : EngineStep) (now : Q)
    (g : Game) :
  let s := score (animate world_step random now g) in
  (s = score g \/ s = (score g + 1)%Z \/ s = 0%Z \/ s = 1%Z)
  /\ (s <= Z.max (score g) 0 + 1)%Z.
Proof.
  cbv zeta. unfold animate.
  set (g1 := checkForTPoseReset random now g).
  set (g2 := updatePlayer g1).
  pose proof (checkForTPoseReset_score random now g) as H1. fold g1 in H1.
  pose proof (updatePlayer_score g1) as H2. fold g2 in H2.
  unfold stepPhysics.
  destruct (world_step (physicsWorld g2)) as [w events].
  pose proof (drainCollisionEvents_one_hit now events (set_physicsWorld w g2))
    as H3.
  change (score (set_physicsWorld w g2)) with (score g2) in H3.
  set (g3 := drainCollisionEvents now events (set_physicsWorld w g2)) in *.
  pose proof (postPhysics_score random now g3) as H4.
  split.
  - destruct H1 as [H1|[H1 _]], H3 as [H3|H3], H4 as [H4|[H4 _]];
      rewrite ?H4, ?H3, ?H2, ?H1; cbn; tauto.
  - destruct H1 as [H1|[H1 _]], H3 as [H3|H3], H4 as [H4|[H4 _]]; lia.
Qed.

(** *** The ball at the end of a frame *)

Lemma beforeGameLogic_ball (g : Game) :
  let b := ballBody (physicsWorld g) in
  let b' := ballBody (physicsWorld (beforeGameLogic g)) in
  rb_translation b' = rb_translation b
  /\ v_y (rb_linvel b') <= MAX_UPWARD_VELOCITY
  /\ (ballJustHitPlayer (beforeGameLogic g) = true ->
      ballJustHitPlayer g = true
      /\ -0.1 <= v_y (rb_linvel b')
      /\ 0.5 <= v_y (rb_translation b')).
Proof.
  unfold beforeGameLogic, clampMaximumUpwardVelocity, resetHitFlag.
  cbn [set_ballMesh physicsWorld ballBody].
  destruct (Qltb MAX_UPWARD_VELOCITY (v_y (rb_linvel (ballBody (physicsWorld g)))))
    eqn:Hclamp; cbn [fst snd onBallBody set_physicsWorld physicsWorld
                     set_ballBody ballBody setLinvel rb_linvel v_y].
  - match goal with
    | |- context [if ?c then _ else _] => destruct c eqn:Hclear
    end; cbn; (split; [reflexivity|]); (split; [apply Qle_refl|]);
      [discriminate|].
    apply orb_false_iff in Hclear. destruct Hclear as [H1 H2].
    apply Qltb_ge in H1, H2. cbn in H1. intros Hflag. repeat split;
      assumption.
  - apply Qltb_ge in Hclamp.
    match goal with
    | |- context [if ?c then _ else _] => destruct c eqn:Hclear
    end; cbn; (split; [reflexivity|]); (split; [exact Hclamp|]);
      [discriminate|].
    apply orb_false_iff in Hclear. destruct Hclear as [H1 H2].
    apply Qltb_ge in H1, H2. intros Hflag. repeat split; assumption.
Qed.

(** Reduce the field reads of a state built by the setters. *)
Ltac refold_fields x :=
  fold (physicsWorld x); fold (ballMesh x); fold (leftKneeMesh x);
  fold (rightKneeMesh x); fold (leftFootMesh x); fold (rightFootMesh x);
  fold (leftLegLine x); fold (rightLegLine x); fold (score x);
  fold (ballJustHitPlayer x); fold (lastPoseResults x); fold (isTPosing x);
  fold (tPoseStartTime x); fold (tPoseResetCooldownActive x);
  fold (flashTimeout x); fold (cooldownTimeouts x); fold (scoreElement x);
  fold (tposeIndicatorElement x); fold (console x); fold (randomCalls x).

Ltac fields :=
  lazy beta iota zeta delta
    [flashBallColor updateScore console_log onBallBody
     set_physicsWorld set_ballMesh set_leftKneeMesh set_rightKneeMesh
     set_leftFootMesh set_rightFootMesh set_leftLegLine set_rightLegLine
     set_score set_ballJustHitPlayer set_lastPoseResults set_isTPosing
     set_tPoseStartTime set_tPoseResetCooldownActive set_flashTimeout
     set_cooldownTimeouts set_scoreElement set_tposeIndicatorElement
     set_console set_randomCalls
     physicsWorld ballMesh leftKneeMesh rightKneeMesh leftFootMesh
     rightFootMesh leftLegLine rightLegLine score ballJustHitPlayer
     lastPoseResults isTPosing tPoseStartTime tPoseResetCooldownActive
     flashTimeout cooldownTimeouts scoreElement tposeIndicatorElement
     console randomCalls];
  repeat match goal with
    | |- context [match ?x with mkGame _ _ _ _ _ _ _ _ _ _ _ _ _ _ _ _ _ _ _ _
                                 => _ end] =>
        progress refold_fields x
    end.

Lemma gameLogic_ball (now : Q) (ballPosition : Vec3) (g : Game) :
  (gameLogic random now ballPosition g = g
   /\ outOfBounds ballPosition = false)
  \/ (ballBody (physicsWorld (gameLogic random now ballPosition g))
      = ballBody (physicsWorld (resetBall random None None g))
      /\ ballJustHitPlayer (gameLogic random now ballPosition g) = false).
Proof.
  rewrite gameLogic_cases.
  destruct (Qltb _ _ && negb _); [right; split; fields; reflexivity|].
  destruct (outOfBounds ballPosition);
    [right; split; fields; reflexivity | left; split; reflexivity].
Qed.

(** X13.  At the end of every frame the ball's upward velocity is at most
    5; and if the hit flag is still set, the ball is at height 0.5 or more,
    not falling faster than 0.1, and within the bounds of part 7 (no reset
    fired). *)
Theorem frame_end_ball (world_step : EngineStep) (now : Q) (g : Game) :
  let g' := animate world_step random now g in
  let b := ballBody (physicsWorld g') in
  v_y (rb_linvel b) <= 5
  /\ (ballJustHitPlayer g' = true ->
      0.5 <= v_y (rb_translation b)
      /\ -0.1 <= v_y (rb_linvel b)
      /\ outOfBounds (rb_translation b) = false).
Proof.
  cbv zeta. unfold animate.
  generalize (stepPhysics world_step now
                (updatePlayer (checkForTPoseReset random now g))).
  intros g3. rewrite postPhysics_gameLogic.
  destruct (beforeGameLogic_ball g3) as (Hpos & Hmax & Hflag).
  cbv zeta in Hpos, Hmax, Hflag.
  destruct (resetBall_freshlyReset random None None (beforeGameLogic g3))
    as (_ & Hvel & _).
  destruct (gameLogic_ball now (rb_translation (ballBody (physicsWorld g3)))
              (beforeGameLogic g3)) as [[Hsame Hin]|[Hball Hclear]].
  - rewrite Hsame. split; [exact Hmax|]. intros Hset.
    destruct (Hflag Hset) as (_ & H1 & H2).
    rewrite Hpos. rewrite Hpos in H2. repeat split; assumption.
  - rewrite Hball, Hclear, Hvel. split; [|discriminate].
    cbn [v_y]. vm_compute. discriminate.
Qed.


(** *** Part 7: which reset wins *)

(** X14.  For a ball that is both below ground level and out of bounds
    (fallen off the side): with no cooldown active the drop reset wins and
    the score becomes 0 with a red flash; during a cooldown the
    out-of-bounds reset still fires, so the ball is respawned with a yellow
    flash and the score is kept.  The cooldown suppresses the drop reset
    only. *)
Theorem drop_wins_over_out_of_bounds (now : Q) (ballPosition : Vec3)
    (g : Game) :
  v_y ballPosition < -0.25 ->
  outOfBounds ballPosition = true ->
  let g' := gameLogic random now ballPosition g in
  freshlyReset g'
  /\ (tPoseResetCooldownActive g = false ->
      score g' = 0%Z /\ bm_color (ballMesh g') = RED)
  /\ (tPoseResetCooldownActive g = true ->
      score g' = score g /\ bm_color (ballMesh g') = YELLOW).
Proof.
  intros Hlow Hout. cbv zeta. rewrite gameLogic_cases, Hout.
  apply Qltb_lt in Hlow. rewrite Hlow. cbn [andb].
  destruct (resetBall_freshlyReset random None None g) as (F1 & F2 & F3 & _).
  pose proof (resetBall_score random None None g) as Hscore.
  unfold freshlyReset.
  destruct (tPoseResetCooldownActive g); cbn [negb]; fields.
  - split; [repeat split; assumption|]. split; [discriminate|].
    intros _. split; [exact Hscore | reflexivity].
  - split; [repeat split; assumption|]. split; [|discriminate].
    intros _. split; reflexivity.
Qed.

(** *** When a gesture reset fires *)

(** Part 0 by cases: a gesture reset, or nothing logged. *)
Lemma checkForTPoseReset_fire_cases (now : Q) (g : Game) :
  let g' := checkForTPoseReset random now g in
  (checkTPose (currentLandmarks g) = true
   /\ tPoseResetCooldownActive g = false
   /\ isTPosing g = true
   /\ T_POSE_DURATION_THRESHOLD_MS <= now - tPoseStartTime g
   /\ exists lms,
        currentLandmarks g = Some lms
        /\ g' = triggerReset random now lms g)
  \/ (~ (checkTPose (currentLandmarks g) = true
         /\ tPoseResetCooldownActive g = false
         /\ isTPosing g = true
         /\ T_POSE_DURATION_THRESHOLD_MS <= now - tPoseStartTime g)
      /\ console g' = console g
      /\ tPoseResetCooldownActive g' = tPoseResetCooldownActive g
      /\ cooldownTimeouts g' = cooldownTimeouts g
      /\ (isTPosing g' = true ->
          tPoseResetCooldownActive g = false
          /\ checkTPose (currentLandmarks g) = true
          /\ tPoseStartTime g'
             = if isTPosing g then tPoseStartTime g else now)).
Proof.
  cbv zeta. unfold checkForTPoseReset.
  destruct (currentLandmarks g) as [lms|] eqn:Hlms;
    destruct (tPoseResetCooldownActive g) eqn:Hcool.
  - right. split; [intros (_ & H & _); discriminate|].
    destruct (isTPosing g) eqn:Hhold; fields; rewrite ?Hcool, ?Hhold;
      repeat split; congruence.
  - destruct (checkTPose (Some lms)) eqn:HT; cbv zeta.
    + destruct (isTPosing g) eqn:Hhold; cbn [negb].
      * destruct (Qle_bool T_POSE_DURATION_THRESHOLD_MS
                    (now - tPoseStartTime g)) eqn:Hdue.
        -- left. apply Qle_bool_iff in Hdue. repeat split; try assumption.
           exists lms. split; reflexivity.
        -- right. split.
           ++ intros (_ & _ & _ & H). apply Qle_bool_iff in H. congruence.
           ++ rewrite Hhold. repeat split; assumption.
      * right. split; [intros (_ & _ & H & _); discriminate|].
        fields. rewrite Hcool. repeat split; congruence.
    + right. split; [intros (H & _); discriminate|].
      destruct (isTPosing g) eqn:Hhold; fields; rewrite ?Hcool, ?Hhold;
        repeat split; congruence.
  - right. split; [intros (H & _); discriminate|].
    destruct (isTPosing g) eqn:Hhold; fields; rewrite ?Hcool, ?Hhold;
      repeat split; congruence.
  - right. split; [intros (H & _); discriminate|].
    destruct (isTPosing g) eqn:Hhold; fields; rewrite ?Hcool, ?Hhold;
      repeat split; congruence.
Qed.

(** X15.  A frame logs a gesture reset exactly when the snapshot shows a
    T-pose, no cooldown is active, a hold is being tracked and it began 700
    ms ago or more.  The frame then ends with the cooldown active and no
    hold tracked; any other frame logs no gesture reset and leaves the
    cooldown flag as it was. *)
Theorem gesture_reset_iff (world_step : EngineStep) (now : Q) (g : Game) :
  let g' := animate world_step random now g in
  let due :=
    checkTPose (currentLandmarks g) = true
    /\ tPoseResetCooldownActive g = false
    /\ isTPosing g = true
    /\ 700 <= now - tPoseStartTime g in
  (due ->
   gestureResets g' = S (gestureResets g)
   /\ tPoseResetCooldownActive g' = true
   /\ isTPosing g' = false)
  /\ (~ due ->
      gestureResets g' = gestureResets g
      /\ tPoseResetCooldownActive g' = tPoseResetCooldownActive g).
Proof.
  cbv zeta.
  pose proof (animate_sameGesture random world_step now g) as Hsame.
  pose proof (sameGesture_gestureResets _ _ Hsame) as HR.
  destruct Hsame as (_ & S2 & _ & S4 & _).
  rewrite HR, S2, S4.
  destruct (checkForTPoseReset_fire_cases now g)
    as [(H1 & H2 & H3 & H4 & lms & _ & Hcf)|(Hnot & Hlog & Hflag & _)].
  - split; [|intros Hnot; exfalso; apply Hnot; repeat split; assumption].
    intros _. rewrite Hcf.
    destruct (triggerReset_gesture random now lms g) as (_ & T2 & T3 & _).
    rewrite (triggerReset_gestureResets random now lms g).
    repeat split; assumption.
  - split; [intros Hdue; exfalso; apply Hnot, Hdue|].
    intros _. unfold gestureResets. rewrite Hlog. split; [reflexivity|].
    exact Hflag.
Qed.

(** X16.  A frame whose snapshot does not show a T-pose (or has no
    landmarks) ends with no hold tracked and logs no gesture reset, however
    long the hold had lasted: the 700 ms must be unbroken at every
    frame. *)
Theorem broken_hold_goes_idle (world_step : EngineStep) (now : Q)
    (g : Game) :
  checkTPose (currentLandmarks g) = false ->
  let g' := animate world_step random now g in
  isTPosing g' = false /\ gestureResets g' = gestureResets g.
Proof.
  intros HT. cbv zeta.
  pose proof (animate_sameGesture random world_step now g) as Hsame.
  pose proof (sameGesture_gestureResets _ _ Hsame) as HR.
  destruct Hsame as (_ & S2 & _).
  rewrite HR, S2.
  destruct (checkForTPoseReset_fire_cases now g)
    as [(H & _)|(_ & Hlog & _ & _ & Hhold)]; [congruence|].
  split.
  - destruct (isTPosing (checkForTPoseReset random now g)); [|reflexivity].
    destruct (Hhold eq_refl) as (_ & H & _). congruence.
  - unfold gestureResets. rewrite Hlog. reflexivity.
Qed.



(** *** Markers, leg lines and limb targets *)

Lemma updatePlayer_parts (g : Game) (landmarks : Landmarks) :
  currentLandmarks g = Some landmarks ->
  let g' := updatePlayer g in
  let w := physicsWorld g in
  let w' := physicsWorld g' in
  let at_ (i : nat) := mapLandmarkToWorld (lookup landmarks i) in
  leftKneeCollider w'
  = updateKinematicCollider (leftKneeCollider w) (at_ L_KNEE)
  /\ rightKneeCollider w'
     = updateKinematicCollider (rightKneeCollider w) (at_ R_KNEE)
  /\ leftFootCollider w'
     = updateKinematicCollider (leftFootCollider w) (at_ L_ANKLE)
  /\ rightFootCollider w'
     = updateKinematicCollider (rightFootCollider w) (at_ R_ANKLE)
  /\ leftKneeMesh g' = updateMarkerMesh false (leftKneeMesh g) (at_ L_KNEE)
  /\ rightKneeMesh g' = updateMarkerMesh false (rightKneeMesh g) (at_ R_KNEE)
  /\ leftFootMesh g' = updateMarkerMesh true (leftFootMesh g) (at_ L_ANKLE)
  /\ rightFootMesh g' = updateMarkerMesh true (rightFootMesh g) (at_ R_ANKLE)
  /\ leftLegLine g'
     = updateLegLine (leftLegLine g) (leftKneeMesh g') (leftFootMesh g')
  /\ rightLegLine g'
     = updateLegLine (rightLegLine g) (rightKneeMesh g') (rightFootMesh g').
Proof.
  intros Hlms. cbv zeta. unfold updatePlayer. rewrite Hlms.
  repeat split.
Qed.

Lemma updateMarkerMesh_visible (isFoot : bool) (mesh : Mesh)
    (targetPos : option Vec3) :
  (mesh_visible (updateMarkerMesh isFoot mesh targetPos) = true
   <-> targetPos <> None)
  /\ forall p,
       targetPos = Some p ->
       mesh_position (updateMarkerMesh isFoot mesh targetPos)
       = if isFoot
         then {| v_x := v_x p; v_y := v_y p - footMarkerSize_h / 3;
                 v_z := v_z p |}
         else p.
Proof.
  destruct targetPos as [q|]; cbn; split.
  - split; [discriminate | reflexivity].
  - intros p Hp. injection Hp as <-. reflexivity.
  - split; [discriminate | congruence].
  - discriminate.
Qed.

Lemma updateLegLine_visible (line : Line) (kneeMesh footMesh : Mesh) :
  line_visible (updateLegLine line kneeMesh footMesh)
  = mesh_visible kneeMesh && mesh_visible footMesh
  /\ (line_visible (updateLegLine line kneeMesh footMesh) = true ->
      line_from (updateLegLine line kneeMesh footMesh)
      = mesh_position kneeMesh
      /\ line_to (updateLegLine line kneeMesh footMesh)
         = mesh_position footMesh).
Proof.
  unfold updateLegLine.
  destruct (mesh_visible kneeMesh && mesh_visible footMesh); cbn;
    split; [reflexivity | split; reflexivity | reflexivity | discriminate].
Qed.

(** X18.  In a frame with landmarks, a limb's marker is visible exactly
    when the mapper accepts its landmark, and then the limb's collider body
    is given the mapped point as its next target and the marker sits on it
    (a foot marker 0.04 lower); a leg line is visible exactly when both its
    knee and foot markers are, and then joins them.  In a frame without
    landmarks every marker and leg line is hidden and the physics world is
    left untouched. *)
Theorem updatePlayer_markers_follow_targets (g : Game) :
  let g' := updatePlayer g in
  let target (c : Collider) := kb_next_translation (parent c) in
  let lowered (p : Vec3) :=
    {| v_x := v_x p; v_y := v_y p - footMarkerSize_h / 3; v_z := v_z p |} in
  (forall landmarks,
     currentLandmarks g = Some landmarks ->
     let leftKnee := mapLandmarkToWorld (lookup landmarks L_KNEE) in
     let rightKnee := mapLandmarkToWorld (lookup landmarks R_KNEE) in
     let leftFoot := mapLandmarkToWorld (lookup landmarks L_ANKLE) in
     let rightFoot := mapLandmarkToWorld (lookup landmarks R_ANKLE) in
     (mesh_visible (leftKneeMesh g') = true <-> leftKnee <> None)
     /\ (mesh_visible (rightKneeMesh g') = true <-> rightKnee <> None)
     /\ (mesh_visible (leftFootMesh g') = true <-> leftFoot <> None)
     /\ (mesh_visible (rightFootMesh g') = true <-> rightFoot <> None)
     /\ (forall p, leftKnee = Some p ->
           target (leftKneeCollider (physicsWorld g')) = Some p
           /\ mesh_position (leftKneeMesh g') = p)
     /\ (forall p, rightKnee = Some p ->
           target (rightKneeCollider (physicsWorld g')) = Some p
           /\ mesh_position (rightKneeMesh g') = p)
     /\ (forall p, leftFoot = Some p ->
           target (leftFootCollider (physicsWorld g')) = Some p
           /\ mesh_position (leftFootMesh g') = lowered p)
     /\ (forall p, rightFoot = Some p ->
           target (rightFootCollider (physicsWorld g')) = Some p
           /\ mesh_position (rightFootMesh g') = lowered p)
     /\ line_visible (leftLegLine g')
        = mesh_visible (leftKneeMesh g') && mesh_visible (leftFootMesh g')
     /\ line_visible (rightLegLine g')
        = mesh_visible (rightKneeMesh g') && mesh_visible (rightFootMesh g')
     /\ (line_visible (leftLegLine g') = true ->
         line_from (leftLegLine g') = mesh_position (leftKneeMesh g')
         /\ line_to (leftLegLine g') = mesh_position (leftFootMesh g'))
     /\ (line_visible (rightLegLine g') = true ->
         line_from (rightLegLine g') = mesh_position (rightKneeMesh g')
         /\ line_to (rightLegLine g') = mesh_position (rightFootMesh g')))
  /\ (currentLandmarks g = None ->
      physicsWorld g' = physicsWorld g
      /\ mesh_visible (leftKneeMesh g') = false
      /\ mesh_visible (rightKneeMesh g') = false
      /\ mesh_visible (leftFootMesh g') = false
      /\ mesh_visible (rightFootMesh g') = false
      /\ line_visible (leftLegLine g') = false
      /\ line_visible (rightLegLine g') = false).
Proof.
  cbv zeta. split.
  - intros landmarks Hlms.
    destruct (updatePlayer_parts g landmarks Hlms)
      as (C1 & C2 & C3 & C4 & M1 & M2 & M3 & M4 & L1 & L2).
    cbv zeta in *. rewrite L1, L2, C1, C2, C3, C4.
    destruct (updateLegLine_visible (leftLegLine g)
                (leftKneeMesh (updatePlayer g)) (leftFootMesh (updatePlayer g)))
      as [LV1 LV2].
    destruct (updateLegLine_visible (rightLegLine g)
                (rightKneeMesh (updatePlayer g))
                (rightFootMesh (updatePlayer g))) as [RV1 RV2].
    rewrite M1, M2, M3, M4 in *.
    repeat split;
      try apply updateMarkerMesh_visible;
      try (intros H; apply updateMarkerMesh_visible in H; exact H);
      try assumption;
      try (rewrite H; reflexivity);
      try (apply (proj2 (updateMarkerMesh_visible _ _ _) _ H)).
    + apply LV2. assumption.
    + apply LV2. assumption.
    + apply RV2. assumption.
    + apply RV2. assumption.
  - intros Hnone. unfold updatePlayer. rewrite Hnone. repeat split.
Qed.

(** *** Between two gesture resets *)

Lemma Forall_removeNth {A : Type} (P : A -> Prop) (l : list A) :
  forall i, Forall P l -> Forall P (removeNth i l).
Proof.
  induction l as [|a rest IH]; intros i Hall; [destruct i; exact Hall|].
  inversion Hall as [|a' rest' Ha Hrest]; subst.
  destruct i as [|j]; cbn [removeNth]; [exact Hrest|].
  constructor; [exact Ha | apply IH, Hrest].
Qed.

Lemma sinceReset_later (t0 last now : Q) (g g' : Game) :
  sinceReset t0 last g ->
  last <= now ->
  cooldownTimeouts g' = cooldownTimeouts g ->
  tPoseResetCooldownActive g' = tPoseResetCooldownActive g ->
  isTPosing g' = isTPosing g ->
  tPoseStartTime g' = tPoseStartTime g ->
  sinceReset t0 now g'.
Proof.
  unfold sinceReset. intros [Hdue Hstate] Hnow -> -> -> ->.
  split; [exact Hdue|].
  destruct Hstate as [Hcooling|(Hcool & Hlast & Hstart)]; [left; exact Hcooling|].
  right. repeat split; [exact Hcool | lra | exact Hstart].
Qed.

Lemma dispatch_sinceReset (t0 last : Q) (g : Game) (now : Q)
    (callback : Callback) :
  sinceReset t0 last g ->
  last <= now ->
  sinceReset t0 now (dispatch random g (now, callback))
  /\ (gestureResets (dispatch random g (now, callback)) <> gestureResets g ->
      t0 + 2700 <= now).
Proof.
  intros Hsince Hnow. pose proof Hsince as [Hdue Hstate].
  destruct callback as [results|world_step|i|]; cbn [dispatch].
  - split; [|intros H; exfalso; apply H; reflexivity].
    apply (sinceReset_later t0 last now g); auto.
  - pose proof (animate_sameGesture random world_step now g) as Hsame.
    pose proof (sameGesture_gestureResets _ _ Hsame) as HR.
    destruct Hsame as (_ & S2 & S3 & S4 & S5 & _).
    unfold sinceReset. rewrite HR, S2, S3, S4, S5.
    destruct (checkForTPoseReset_fire_cases now g)
      as [(_ & Hcool & Hhold & Hlong & lms & _ & Hcf)
         |(_ & Hlog & Hflag & Htimers & Hheld)].
    + assert (Hlate : t0 + 2700 <= now).
      { destruct Hstate as [[Hc _]|(_ & _ & Hstart)]; [congruence|].
        specialize (Hstart Hhold).
        unfold T_POSE_DURATION_THRESHOLD_MS, T_POSE_RESET_COOLDOWN_MS in *.
        lra. }
      split; [|intros _; exact Hlate].
      destruct (triggerReset_gesture random now lms g)
        as (_ & T2 & T3 & T4 & _).
      rewrite Hcf, T2, T3, T4. split; [|left; split; reflexivity].
      apply Forall_app. split; [exact Hdue|].
      constructor; [|constructor].
      unfold T_POSE_RESET_COOLDOWN_MS in *. lra.
    + split; [|intros H; exfalso; apply H; unfold gestureResets;
               rewrite Hlog; reflexivity].
      rewrite Hflag, Htimers. split; [exact Hdue|].
      destruct Hstate as [[Hcool Hidle]|(Hcool & Hlast & Hstart)].
      * left. split; [exact Hcool|].
        destruct (isTPosing (checkForTPoseReset random now g));
          [|reflexivity].
        destruct (Hheld eq_refl) as (Hc & _). congruence.
      * right. repeat split; [exact Hcool | lra|].
        intros Hnew. destruct (Hheld Hnew) as (_ & _ & ->).
        destruct (isTPosing g); [apply Hstart; reflexivity | lra].
  - destruct (nth_error (cooldownTimeouts g) i) as [due|] eqn:Hnth.
    + destruct (Qle_bool due now) eqn:Hfire.
      * apply Qle_bool_iff in Hfire.
        assert (Hlate : t0 + T_POSE_RESET_COOLDOWN_MS <= due).
        { rewrite Forall_forall in Hdue. apply Hdue.
          apply (nth_error_In _ _ Hnth). }
        split; [|rewrite cooldownTimeoutCallback_gestureResets;
                 intros H; exfalso; apply H; reflexivity].
        split; [apply Forall_removeNth, Hdue|].
        right. split; [reflexivity|]. split; [lra|].
        intros Hheld.
        destruct Hstate as [[_ Hidle]|(_ & _ & Hstart)];
          [|apply Hstart, Hheld].
        change (isTPosing g = true) in Hheld. congruence.
      * split; [|intros H; exfalso; apply H; reflexivity].
        apply (sinceReset_later t0 last now g); auto.
    + split; [|intros H; exfalso; apply H; reflexivity].
      apply (sinceReset_later t0 last now g); auto.
  - assert (Hsame : sinceReset t0 now g)
      by (apply (sinceReset_later t0 last now g); auto).
    destruct (flashTimeout g) as [due|];
      [|split; [exact Hsame | intros H; exfalso; apply H; reflexivity]].
    destruct (Qle_bool due now);
      (split; [exact Hsame | intros H; exfalso; apply H; reflexivity]).
Qed.

Lemma run_sinceReset (t0 : Q) (before : list (Q * Callback)) :
  forall (last : Q) (g : Game) (t : Q) (world_step : EngineStep),
    sinceReset t0 last g ->
    chronological last (before ++ [(t, AnimationFrame world_step)]) ->
    gestureResets (run random g (before ++ [(t, AnimationFrame world_step)]))
    <> gestureResets (run random g before) ->
    t0 + 2700 <= t.
Proof.
  unfold run.
  induction before as [|[now callback] rest IH];
    intros last g t world_step Hsince Hchrono Hfired.
  - cbn in Hchrono. destruct Hchrono as [Hnow _].
    apply (dispatch_sinceReset t0 last g t (AnimationFrame world_step)
             Hsince Hnow).
    exact Hfired.
  - cbn [app chronological] in Hchrono. destruct Hchrono as [Hnow Hrest].
    destruct (dispatch_sinceReset t0 last g now callback Hsince Hnow)
      as [Hnext _].
    apply (IH now (dispatch random g (now, callback)) t world_step Hnext
             Hrest).
    exact Hfired.
Qed.

(** X19.  Two gesture resets are never less than 2700 ms apart.  After a
    frame at [t0] has logged a gesture reset, with the browser running its
    callbacks in the order of their times, any later frame that logs a
    gesture reset comes at [t0 + 2700] or after: the cooldown lasts 2000
    ms, and the hold can only begin once it is over. *)
Theorem gesture_resets_2700ms_apart (world_step step : EngineStep)
    (g : Game) (t0 t : Q) (before : list (Q * Callback)) :
  cooldownTimersTracked g ->
  gestureResets (animate world_step random t0 g) = S (gestureResets g) ->
  chronological t0 (before ++ [(t, AnimationFrame step)]) ->
  let reset := animate world_step random t0 g in
  gestureResets (run random reset (before ++ [(t, AnimationFrame step)]))
  <> gestureResets (run random reset before) ->
  t0 + 2700 <= t.
Proof.
  intros Htracked Hfired Hchrono reset Hagain.
  apply (run_sinceReset t0 before t0 reset t step); [|exact Hchrono|exact Hagain].
  destruct (animate_starts_cooldown random world_step t0 g Htracked Hfired)
    as (Hcool & Hdue & _).
  fold reset in Hcool, Hdue.
  split; [exact Hdue|]. left. split; [exact Hcool|].
  pose proof (animate_sameGesture random world_step t0 g)
    as (_ & S2 & _).
  fold reset in S2. rewrite S2.
  destruct (checkForTPoseReset_fire_cases t0 g)
    as [(_ & _ & _ & _ & lms & _ & Hcf)|(_ & Hlog & _)].
  - rewrite Hcf. apply (triggerReset_gesture random t0 lms g).
  - exfalso.
    rewrite (sameGesture_gestureResets _ _
               (animate_sameGesture random world_step t0 g)) in Hfired.
    unfold gestureResets in Hfired. rewrite Hlog in Hfired. lia.
Qed.

(** *** The end of the cooldown *)

Lemma dispatch_keeps_cooldown (g : Game) (now : Q) (callback : Callback) :
  tPoseResetCooldownActive g = true ->
  (forall i, callback <> cooldownTimeout i) ->
  tPoseResetCooldownActive (dispatch random g (now, callback)) = true
  /\ gestureResets (dispatch random g (now, callback)) = gestureResets g.
Proof.
  intros Hcool Hother.
  destruct callback as [results|world_step|i|]; cbn [dispatch].
  - split; [exact Hcool | reflexivity].
  - pose proof (animate_sameGesture random world_step now g) as Hsame.
    pose proof (sameGesture_gestureResets _ _ Hsame) as HR.
    destruct Hsame as (_ & _ & _ & S4 & _).
    destruct (checkForTPoseReset_cooldown random now g Hcool)
      as (C1 & _ & C3 & _).
    rewrite HR, S4. split; [exact C1|].
    unfold gestureResets. rewrite C3. reflexivity.
  - exfalso. apply (Hother i). reflexivity.
  - destruct (flashTimeout g) as [due|]; [|split; [exact Hcool | reflexivity]].
    destruct (Qle_bool due now); split; try exact Hcool; reflexivity.
Qed.

(** X20.  Only the cooldown timer ends a cooldown: as long as its callback
    does not run, whatever else the browser runs and however much time
    passes, the cooldown flag stays set and no gesture reset is logged. *)
Theorem cooldown_ends_only_by_timer (g : Game)
    (events : list (Q * Callback)) :
  tPoseResetCooldownActive g = true ->
  Forall (fun event => forall i, snd event <> cooldownTimeout i) events ->
  tPoseResetCooldownActive (run random g events) = true
  /\ gestureResets (run random g events) = gestureResets g.
Proof.
  unfold run. revert g.
  induction events as [|[now callback] rest IH]; intros g Hcool Hall;
    cbn [fold_left]; [split; [exact Hcool | reflexivity]|].
  inversion Hall as [|event rest' Hother Hrest]; subst. cbn [snd] in Hother.
  destruct (dispatch_keeps_cooldown g now callback Hcool Hother) as [H1 H2].
  destruct (IH _ H1 Hrest) as [I1 I2].
  split; [exact I1 | congruence].
Qed.

(** X21.  Once a due cooldown timer has run, the gesture works again: from
    a cooldown with no hold tracked and a snapshot showing a T-pose, the
    timer callback followed by two frames 700 ms or more apart logs exactly
    one gesture reset. *)
Theorem gesture_works_after_cooldown (g : Game) (i : nat) (due t1 t2 t3 : Q)
    (first last : EngineStep) :
  tPoseResetCooldownActive g = true ->
  isTPosing g = false ->
  checkTPose (currentLandmarks g) = true ->
  nth_error (cooldownTimeouts g) i = Some due ->
  due <= t1 ->
  700 <= t3 - t2 ->
  gestureResets
    (run random g
       [(t1, cooldownTimeout i); (t2, AnimationFrame first);
        (t3, AnimationFrame last)])
  = S (gestureResets g).
Proof.
  intros Hcool Hidle HT Hnth Hdue Hlong.
  unfold run. cbn [fold_left dispatch]. rewrite Hnth.
  apply Qle_bool_iff in Hdue. rewrite Hdue.
  set (g1 := cooldownTimeoutCallback
               (set_cooldownTimeouts (removeNth i (cooldownTimeouts g)) g)).
  assert (Hhold : holding t2 (gestureResets g)
                    (animate first random t2 g1)).
  { replace (gestureResets g) with (gestureResets g1)
      by (unfold g1; rewrite cooldownTimeoutCallback_gestureResets;
          reflexivity).
    apply (animate_starts_hold random first t2 g1).
    - exact HT.
    - exact Hidle.
    - reflexivity. }
  rewrite (animate_ends_hold random last t2 t3 _ _ Hhold).
  apply Qle_bool_iff in Hlong.
  change 700 with T_POSE_DURATION_THRESHOLD_MS in Hlong.
  rewrite Hlong. reflexivity.
Qed.

(** *** Collision events *)

(** X22.  The callback does not care in which order an event names its two
    colliders; an event that is not a start, or does not pair the ball with
    a limb (the ground, say), changes nothing. *)
Theorem collision_event_symmetric (now : Q) (g : Game) (h1 h2 : Handle)
    (s : bool) :
  collisionCallback now g (mkCollisionEvent h1 h2 s)
  = collisionCallback now g (mkCollisionEvent h2 h1 s)
  /\ collisionCallback now g (mkCollisionEvent h1 h2 false) = g
  /\ (rb_collider_handle (ballBody (physicsWorld g)) <> h1 ->
      rb_collider_handle (ballBody (physicsWorld g)) <> h2 ->
      collisionCallback now g (mkCollisionEvent h1 h2 s) = g)
  /\ (let limbs :=
        [handle (leftKneeCollider (physicsWorld g));
         handle (rightKneeCollider (physicsWorld g));
         handle (leftFootCollider (physicsWorld g));
         handle (rightFootCollider (physicsWorld g))] in
      ~ In h1 limbs -> ~ In h2 limbs ->
      collisionCallback now g (mkCollisionEvent h1 h2 s) = g).
Proof.
  rewrite !collisionCallback_test. unfold ballLimbStart.
  cbn [handle1 handle2 started].
  set (ball := rb_collider_handle (ballBody (physicsWorld g))).
  set (limbs := [handle (leftKneeCollider (physicsWorld g));
                 handle (rightKneeCollider (physicsWorld g));
                 handle (leftFootCollider (physicsWorld g));
                 handle (rightFootCollider (physicsWorld g))]).
  assert (Hin : forall h, ~ In h limbs -> existsb (N.eqb h) limbs = false).
  { intros h Hh. destruct (existsb (N.eqb h) limbs) eqn:E; [|reflexivity].
    apply existsb_exists in E. destruct E as (x & Hx & Heq).
    apply N.eqb_eq in Heq. subst x. contradiction. }
  split; [rewrite (orb_comm (N.eqb h1 ball && _)); reflexivity|].
  split; [reflexivity|]. split.
  - intros H1 H2.
    replace (N.eqb h1 ball) with false
      by (symmetry; apply N.eqb_neq; congruence).
    replace (N.eqb h2 ball) with false
      by (symmetry; apply N.eqb_neq; congruence).
    cbn [andb orb]. rewrite andb_false_r. reflexivity.
  - cbv zeta. intros H1 H2. rewrite (Hin h1 H1), (Hin h2 H2).
    rewrite !andb_false_r. reflexivity.
Qed.

End Frames.

(** ** The sample game, continued *)

Lemma filteredLandmarks_drops_face_witness :
  filteredLandmarks (repeat None 5) = [].
Proof.
  apply (proj2 (proj2 (proj2 (filteredLandmarks_drops_face (repeat None 5))))).
  vm_compute. lia.
Defined.

Lemma indicator_tracks_hold_witness :
  tposeIndicatorElement holdingGame = isTPosing holdingGame.
Proof.
  apply (indicator_tracks_hold quarter_random (initialGame 14)
           [(900, PoseResult tPoseResults);
            (1000, AnimationFrame kinematic_step);
            (1400, AnimationFrame kinematic_step)]).
  reflexivity.
Defined.

Lemma score_text_tracks_score_witness :
  scoreElement
    (sampleRun (initialGame 14)
       [(0, AnimationFrame (fun w => (w, [mkCollisionEvent 1%N 2%N true])))])
  = score
      (sampleRun (initialGame 14)
         [(0, AnimationFrame (fun w => (w, [mkCollisionEvent 1%N 2%N true])))]).
Proof.
  apply (score_text_tracks_score quarter_random (initialGame 14)).
  reflexivity.
Defined.

Lemma ball_white_unless_flashing_witness :
  bm_color
    (ballMesh
       (sampleRun (initialGame 14)
          [(0, AnimationFrame (fun w => (w, [mkCollisionEvent 1%N 2%N true])));
           (150, flashTimer)])) = WHITE.
Proof.
  apply (proj2 (ball_white_unless_flashing quarter_random (initialGame 14) 14
                  [(0, AnimationFrame
                         (fun w => (w, [mkCollisionEvent 1%N 2%N true])));
                   (150, flashTimer)])).
  vm_compute. reflexivity.
Defined.

Lemma frame_end_ball_witness :
  let g :=
    animate (fun w => (w, [mkCollisionEvent 1%N 2%N true])) quarter_random 0
      (initialGame 14) in
  0.5 <= v_y (rb_translation (ballBody (physicsWorld g)))
  /\ -0.1 <= v_y (rb_linvel (ballBody (physicsWorld g))).
Proof.
  intros g.
  destruct (proj2 (frame_end_ball quarter_random
                     (fun w => (w, [mkCollisionEvent 1%N 2%N true])) 0
                     (initialGame 14))) as (H1 & H2 & _).
  - vm_compute. reflexivity.
  - split; assumption.
Defined.

Lemma drop_wins_over_out_of_bounds_witness :
  score (gameLogic quarter_random 0 {| v_x := 6; v_y := -0.3; v_z := 0 |}
           (set_score 3%Z (initialGame 14))) = 0%Z.
Proof.
  destruct (drop_wins_over_out_of_bounds quarter_random 0
              {| v_x := 6; v_y := -0.3; v_z := 0 |}
              (set_score 3%Z (initialGame 14))) as (_ & Hdrop & _).
  - vm_compute. reflexivity.
  - vm_compute. reflexivity.
  - apply Hdrop. reflexivity.
Defined.

Lemma gesture_reset_iff_witness :
  gestureResets (animate kinematic_step quarter_random 1700 holdingGame)
  = S (gestureResets holdingGame).
Proof.
  apply (proj1 (gesture_reset_iff quarter_random kinematic_step 1700
                  holdingGame)).
  repeat split; vm_compute; try reflexivity; discriminate.
Defined.

Lemma broken_hold_goes_idle_witness :
  isTPosing
    (animate kinematic_step quarter_random 1800
       (onPoseResults standingResults holdingGame)) = false.
Proof.
  apply (broken_hold_goes_idle quarter_random kinematic_step 1800
           (onPoseResults standingResults holdingGame)).
  vm_compute. reflexivity.
Defined.


Lemma updatePlayer_markers_follow_targets_witness :
  mesh_visible
    (leftKneeMesh (updatePlayer (onPoseResults hiddenKneeResults trackedGame)))
  = false
  /\ line_visible
       (leftLegLine
          (updatePlayer (onPoseResults hiddenKneeResults trackedGame)))
     = false.
Proof.
  destruct (proj1 (updatePlayer_markers_follow_targets
                     (onPoseResults hiddenKneeResults trackedGame))
              hiddenKneeLandmarks eq_refl)
    as (Hknee & _ & _ & _ & _ & _ & _ & _ & Hline & _).
  cbv zeta in Hknee, Hline.
  assert (Hhidden : mesh_visible
                      (leftKneeMesh
                         (updatePlayer
                            (onPoseResults hiddenKneeResults trackedGame)))
                    = false).
  { destruct (mesh_visible _) eqn:E; [|reflexivity].
    exfalso. apply (proj1 Hknee eq_refl). vm_compute. reflexivity. }
  split; [exact Hhidden|]. rewrite Hline, Hhidden. reflexivity.
Defined.

Lemma gesture_resets_2700ms_apart_witness : 1700 + 2700 <= 4500.
Proof.
  apply (gesture_resets_2700ms_apart quarter_random kinematic_step
           kinematic_step holdingGame 1700 4500
           [(3700, cooldownTimeout 0); (3800, AnimationFrame kinematic_step)]).
  - split; [intros _; vm_compute; reflexivity | vm_compute; lia].
  - vm_compute. reflexivity.
  - vm_compute. repeat split; discriminate.
  - vm_compute. discriminate.
Defined.

Lemma cooldown_ends_only_by_timer_witness :
  tPoseResetCooldownActive
    (sampleRun (animate kinematic_step quarter_random 1700 holdingGame)
       [(5000, AnimationFrame kinematic_step);
        (9000, PoseResult tPoseResults);
        (99000, AnimationFrame kinematic_step)]) = true.
Proof.
  apply (cooldown_ends_only_by_timer quarter_random
           (animate kinematic_step quarter_random 1700 holdingGame)).
  - vm_compute. reflexivity.
  - repeat (constructor; [intros i; discriminate|]). constructor.
Defined.

Lemma gesture_works_after_cooldown_witness :
  gestureResets
    (sampleRun (animate kinematic_step quarter_random 1700 holdingGame)
       [(3700, cooldownTimeout 0); (3800, AnimationFrame kinematic_step);
        (4500, AnimationFrame kinematic_step)])
  = 2%nat.
Proof.
  apply (gesture_works_after_cooldown quarter_random
           (animate kinematic_step quarter_random 1700 holdingGame)
           0 3700 3700 3800 4500 kinematic_step kinematic_step).
  - vm_compute. reflexivity.
  - vm_compute. reflexivity.
  - vm_compute. reflexivity.
  - vm_compute. reflexivity.
  - vm_compute. discriminate.
  - vm_compute. discriminate.
Defined.

Lemma collision_event_symmetric_witness :
  collisionCallback 0 (initialGame 14) (mkCollisionEvent 0%N 1%N true)
  = initialGame 14.
Proof.
  destruct (collision_event_symmetric 0 (initialGame 14) 0%N 1%N true)
    as (_ & _ & _ & Hground).
  apply Hground.
  - vm_compute. intuition discriminate.
  - vm_compute. intuition discriminate.
Defined.
